(** * levnertech: ISO 27001 gap assessment

    A shallow embedding of the decision-tree traversal engine
    ([decision_tree.py]), the scoring and report helpers ([utils.py]), the
    guard of the open-ended evaluation ([llm_assessment.py]) and the verdict
    summary of the results page ([app.py]), with the properties the design
    specification states about them.

    Python values are modelled as follows.
    - [str] is [string]; equality of two [str] is Leibniz equality, decided
      by [String.eqb].  Lengths and character classes are taken on the
      bytes of the literal, which agrees with Python on ASCII text.
    - [float] is the kernel's binary64 [float]; [a >= b] is [b <=? a] and
      [a < b] is [a <? b], both false on NaN as in IEEE 754 and Python.
    - [dict] is an association list in insertion order, read by first match;
      the literals of the source never repeat a key.
    - an exception is a value of [exn]; a function that may raise returns
      [exn + A]. *)

From Stdlib Require Import String Ascii List Bool Arith ZArith Lia Floats.
Import ListNotations.
Set Warnings "-inexact-float,-register-all,-abstract-large-number".

Local Open Scope string_scope.
Local Open Scope list_scope.

(* ===================================================================== *)
(** * Python values, dictionaries and text formatting *)
(* ===================================================================== *)

Module Py.

(** The exceptions the modelled code can raise. *)
Inductive exn : Type :=
| KeyError
| ValueError
| IndexError
| TypeError
| AttributeError
| RuntimeError.

(** What the source stores under ["clause"] and ["verdict"]: [None], a
    [str], or a list of [str] (a compound verdict). *)
Inductive value : Type :=
| VNone
| VStr (s : string)
| VList (l : list string).

Definition dict (V : Type) : Type := list (string * V).

(** [d.get(k)] as an option; [None] of the option is the missing key. *)
Fixpoint dict_get {V : Type} (d : dict V) (k : string) : option V :=
  match d with
  | [] => None
  | (k', v) :: d' => if String.eqb k k' then Some v else dict_get d' k
  end.

(** [k in d]. *)
Definition dict_contains {V : Type} (d : dict V) (k : string) : bool :=
  match dict_get d k with
  | Some _ => true
  | None => false
  end.

(** [list(d.keys())]. *)
Definition dict_keys {V : Type} (d : dict V) : list string := map fst d.

(** [list(d.values())]. *)
Definition dict_values {V : Type} (d : dict V) : list V := map snd d.

(** [d[k]]: raises [KeyError] on a missing key. *)
Definition subscript {V : Type} (d : dict V) (k : string) : exn + V :=
  match dict_get d k with
  | Some v => inr v
  | None => inl KeyError
  end.

(** [d[k] = v] on a key that may or may not be present: an existing key
    keeps its position, a new key goes last. *)
Fixpoint dict_set {V : Type} (d : dict V) (k : string) (v : V) : dict V :=
  match d with
  | [] => [(k, v)]
  | (k', v') :: d' =>
      if String.eqb k k' then (k', v) :: d' else (k', v') :: dict_set d' k v
  end.

(** [a == b] on values. *)
Definition value_eqb (a b : value) : bool :=
  match a, b with
  | VNone, VNone => true
  | VStr s, VStr t => String.eqb s t
  | VList l, VList m =>
      if list_eq_dec string_dec l m then true else false
  | _, _ => false
  end.

(** [c in s] for a character and a [str]. *)
Fixpoint contains_char (c : ascii) (s : string) : bool :=
  match s with
  | EmptyString => false
  | String c' s' => Ascii.eqb c c' || contains_char c s'
  end.

Definition hex_digit (n : nat) : ascii :=
  if (n <? 10)%nat then ascii_of_nat (48 + n) else ascii_of_nat (87 + n).

Definition char (c : ascii) : string := String c EmptyString.

Definition backslash : ascii := ascii_of_nat 92.
Definition single_quote : ascii := ascii_of_nat 39.
Definition double_quote : ascii := ascii_of_nat 34.

(** One character of [repr(s)] between quotes [q]: the quote and the
    backslash are escaped, tab, newline and carriage return have their
    letters, other control characters are [\xhh]; everything else,
    bytes of multi-byte characters included, is kept. *)
Definition repr_char (q c : ascii) : string :=
  let n := nat_of_ascii c in
  if Ascii.eqb c q || Ascii.eqb c backslash then String backslash (char c)
  else if (n =? 9)%nat then String backslash "t"
  else if (n =? 10)%nat then String backslash "n"
  else if (n =? 13)%nat then String backslash "r"
  else if ((n <? 32) || (n =? 127))%nat then
    String backslash (String "x" (String (hex_digit (n / 16)) (char (hex_digit (n mod 16)))))
  else char c.

Fixpoint repr_body (q : ascii) (s : string) : string :=
  match s with
  | EmptyString => EmptyString
  | String c s' => repr_char q c ++ repr_body q s'
  end.

(** [repr(s)] of a [str]: single quotes, unless the text has a single
    quote and no double quote. *)
Definition py_repr (s : string) : string :=
  let q := if contains_char single_quote s && negb (contains_char double_quote s)
           then double_quote else single_quote in
  char q ++ repr_body q s ++ char q.

(** [str(v)], what an f-string writes for [{v}]. *)
Definition py_str (v : value) : string :=
  match v with
  | VNone => "None"
  | VStr s => s
  | VList l => "[" ++ String.concat ", " (map py_repr l) ++ "]"
  end.

(** [list(dict.fromkeys(l))]: the first occurrence of each text, in order. *)
Definition dedup (l : list string) : list string :=
  fold_left
    (fun seen x => if existsb (String.eqb x) seen then seen else seen ++ [x])
    l [].

(** The ASCII characters [str.strip()] removes. *)
Definition is_space (c : ascii) : bool :=
  let n := nat_of_ascii c in
  ((9 <=? n) && (n <=? 13) || (28 <=? n) && (n <=? 32))%nat.

Definition is_empty (s : string) : bool :=
  match s with
  | EmptyString => true
  | String _ _ => false
  end.

Fixpoint lstrip_by (drop : ascii -> bool) (s : string) : string :=
  match s with
  | EmptyString => EmptyString
  | String c s' => if drop c then lstrip_by drop s' else s
  end.

Definition reverse (s : string) : string :=
  string_of_list_ascii (rev (list_ascii_of_string s)).

Definition rstrip_by (drop : ascii -> bool) (s : string) : string :=
  reverse (lstrip_by drop (reverse s)).

(** [s.strip()]. *)
Definition strip (s : string) : string :=
  rstrip_by is_space (lstrip_by is_space s).

(** [s.lstrip(chars)] and [s.rstrip(chars)]: [chars] is a set of characters. *)
Definition lstrip_chars (chars s : string) : string :=
  lstrip_by (fun c => contains_char c chars) s.
Definition rstrip_chars (chars s : string) : string :=
  rstrip_by (fun c => contains_char c chars) s.

(** No text occurs twice in [l]. *)
Fixpoint distinct (l : list string) : bool :=
  match l with
  | [] => true
  | x :: l' => negb (existsb (String.eqb x) l') && distinct l'
  end.

(** A loop whose body may raise: the first exception ends it. *)
Fixpoint for_each {S A : Type} (body : S -> A -> exn + S) (l : list A) (s : S)
    : exn + S :=
  match l with
  | [] => inr s
  | a :: l' =>
      match body s a with
      | inl e => inl e
      | inr s' => for_each body l' s'
      end
  end.

End Py.

Import Py.

(* ===================================================================== *)
(** * utils.py *)
(* ===================================================================== *)

Module Utils.

Local Open Scope float_scope.

Definition COMPLIED_THRESHOLD : float := 0.85.
Definition MINOR_NC_THRESHOLD : float := 0.7.
Definition MAJOR_NC_THRESHOLD : float := 0.6.

(** [a >= b] and [a < b] on Python floats. *)
Definition fge (a b : float) : bool := b <=? a.
Definition flt (a b : float) : bool := a <? b.

(** utils.py:9-24. *)
Definition score_to_verdict (relevance completeness : float) : string :=
  if fge relevance COMPLIED_THRESHOLD && fge completeness COMPLIED_THRESHOLD
  then "Complied"%string
  else if flt relevance MAJOR_NC_THRESHOLD || flt completeness MAJOR_NC_THRESHOLD
  then "Major NC"%string
  else if fge relevance MINOR_NC_THRESHOLD && fge completeness MINOR_NC_THRESHOLD
  then "Minor NC"%string
  else "Opportunity for Improvement"%string.

(** The four rules of the scoring fallback as the specification words
    them: each rule applies only when no earlier rule does. *)
Definition rule_complied (r c : float) : Prop :=
  (0.85 <=? r) = true /\ (0.85 <=? c) = true.
Definition rule_major (r c : float) : Prop :=
  (r <? 0.6) = true \/ (c <? 0.6) = true.
Definition rule_minor (r c : float) : Prop :=
  (0.7 <=? r) = true /\ (0.7 <=? c) = true.

Inductive scoring_rule (r c : float) : string -> Prop :=
| first_complied :
    rule_complied r c -> scoring_rule r c "Complied"
| then_major :
    ~ rule_complied r c -> rule_major r c -> scoring_rule r c "Major NC"
| then_minor :
    ~ rule_complied r c -> ~ rule_major r c -> rule_minor r c ->
    scoring_rule r c "Minor NC"
| otherwise_ofi :
    ~ rule_complied r c -> ~ rule_major r c -> ~ rule_minor r c ->
    scoring_rule r c "Opportunity for Improvement".

Local Close Scope float_scope.

(** utils.py:27-35. *)
Definition generate_gap_analysis (clause_id : string) (verdict : value)
    (details : value) : dict value :=
  [("clause", VStr clause_id); ("verdict", verdict); ("details", details)].

(** [analysis.get(k)]: [None] when the key is missing. *)
Definition get (analysis : dict value) (k : string) : value :=
  match dict_get analysis k with
  | Some v => v
  | None => VNone
  end.

Definition rec_complied : string :=
  "Pertahankan praktik yang telah berjalan dengan baik.".
Definition rec_minor_1 : string :=
  "Perbaiki detail yang kurang untuk memenuhi standar penuh.".
Definition rec_minor_2 : string :=
  "Tinjau kembali dokumentasi dan lengkapi bagian yang belum memadai.".
Definition rec_ofi_1 : string :=
  "Pertimbangkan untuk meningkatkan proses meski sudah memenuhi syarat minimal.".
Definition rec_ofi_2 : string :=
  "Tuliskan prosedur lebih rinci untuk meningkatkan konsistensi implementasi.".
Definition rec_major_1 : string :=
  "Segera implementasikan proses sesuai klausul yang belum ada.".
Definition rec_major_2 : string :=
  "Susun dan dokumentasikan prosedur dasar untuk kepatuhan awal.".

(** utils.py:38-55.  [recs] starts empty and each branch appends. *)
Definition generate_recommendations (analysis : dict value) : list string :=
  let v := get analysis "verdict" in
  let recs : list string := [] in
  if value_eqb v (VStr "Complied") then
    recs ++ [rec_complied]
  else if value_eqb v (VStr "Minor NC") then
    (recs ++ [rec_minor_1]) ++ [rec_minor_2]
  else if value_eqb v (VStr "Opportunity for Improvement") then
    (recs ++ [rec_ofi_1]) ++ [rec_ofi_2]
  else
    (recs ++ [rec_major_1]) ++ [rec_major_2].

(** The line of utils.py:67. *)
Definition checklist_line (clause verdict : value) : string :=
  "Tinjau dan perbaiki klausul " ++ py_str clause ++ ": verdict = " ++ py_str verdict.

Definition all_complied_message : string :=
  "Semua klausul telah terpenuhi. Tidak ada tindakan tambahan yang diperlukan.".

(** One turn of the loop of utils.py:63-67. *)
Definition checklist_step (checklist : list string) (analysis : dict value)
    : list string :=
  let clause := get analysis "clause" in
  let verdict := get analysis "verdict" in
  if negb (value_eqb verdict (VStr "Complied"))
  then checklist ++ [checklist_line clause verdict]
  else checklist.

(** utils.py:58-70. *)
Definition generate_checklist (analysis_list : list (dict value)) : list string :=
  let checklist := fold_left checklist_step analysis_list [] in
  match checklist with
  | [] => checklist ++ [all_complied_message]
  | _ :: _ => checklist
  end.

(** The test of utils.py:66. *)
Definition outstanding (analysis : dict value) : bool :=
  negb (value_eqb (get analysis "verdict") (VStr "Complied")).

(** The line written for one analysis. *)
Definition line_of (analysis : dict value) : string :=
  checklist_line (get analysis "clause") (get analysis "verdict").

(** utils.py:73-93; the report is the triple of its three entries. *)
Definition compile_report (analysis_list : list (dict value))
    : list (dict value) * list string * list string :=
  let all_recs :=
    fold_left (fun all_recs a => all_recs ++ generate_recommendations a)
              analysis_list [] in
  let recommendations := dedup all_recs in
  let checklist := generate_checklist analysis_list in
  (analysis_list, recommendations, checklist).

End Utils.

(* ===================================================================== *)
(** * decision_tree.py *)
(* ===================================================================== *)

Module DecisionTree.

(** What an option leads to: the id of the next step (a [str] in the
    source) or the dict [{"verdict": v}]. *)
Inductive target : Type :=
| Goto (next_step : string)
| Terminal (verdict : value).

(** The dict of one step, with its two keys. *)
Record step : Type := {
  question : string;
  options : dict target
}.

(** The dict of one clause, with its two keys. *)
Record clause : Type := {
  title : string;
  steps : dict step
}.

(** The type of the module global [decision_trees]. *)
Definition store : Type := dict clause.

(** Code of the module runs against the global and may raise: a
    computation takes the global as it is and returns its result with
    the global as it leaves it. *)
Definition M (A : Type) : Type := store -> (exn + A) * store.

Definition ret {A : Type} (a : A) : M A := fun g => (inr a, g).

Definition raise {A : Type} (e : exn) : M A := fun g => (inl e, g).

Definition bind {A B : Type} (m : M A) (k : A -> M B) : M B :=
  fun g =>
    match m g with
    | (inr a, g') => k a g'
    | (inl e, g') => (inl e, g')
    end.

(** Reading the name [decision_trees]. *)
Definition read_global : M store := fun g => (inr g, g).

(** A subscript or another pure step that may raise. *)
Definition lift {A : Type} (r : exn + A) : M A := fun g => (r, g).

Declare Scope tree_scope.
Delimit Scope tree_scope with tree.
Notation "x <- m ;; k" := (bind m (fun x => k))
  (at level 61, m at next level, right associativity) : tree_scope.
Local Open Scope tree_scope.

(** What [evaluate_answer] returns: the next step id, or a new dict
    [{"verdict": v}]. *)
Inductive result : Type :=
| NextStep (next_step : string)
| VerdictDict (verdict : value).

(** decision_tree.py:6-167. *)
Definition decision_trees : store :=
  [
  ("4.1",
   {| title := "Understanding the organization and its context";
      steps :=
      [
       ("1",
        {| question :=
             "Does the organization have a defined process (formal or informal) for identifying external issues (e.g., market conditions, regulatory environment, cultural, social factors) relevant to information security?";
           options :=
             [("Yes", Goto "2");
              ("No", Terminal (VStr "Major NC"))] |});
       ("2",
        {| question :=
             "Does the organization have a defined process for identifying internal issues (e.g., organizational structure, strategic objectives, internal culture, resource constraints) that affect ISMS outcomes?";
           options :=
             [("Yes", Goto "3");
              ("No", Terminal (VStr "Major NC"))] |});
       ("3",
        {| question :=
             "Where are these issues documented or recorded? (e.g., strategic plan, context analysis document, risk register)";
           options :=
             [("Clear Documentation", Goto "4");
              ("Partial / Verbal Only", Terminal (VList ["Minor NC"; "OFI"]))] |});
       ("4",
        {| question :=
             "Is there a schedule or trigger to review and update these external/internal issues?";
           options :=
             [("Regularly Reviewed", Goto "5");
              ("Irregular or Not Formalized", Terminal (VList ["Minor NC"; "OFI"]))] |});
       ("5",
        {| question :=
             "Do the identified issues clearly align with the organization's purpose and influence on the ISMS objectives?";
           options :=
             [("Yes", Terminal (VStr "Complied"));
              ("Partially or Vague", Terminal (VList ["OFI"; "Minor NC"]))] |})
      ] |});
  ("4.2",
   {| title := "Understanding the needs and expectations of interested parties";
      steps :=
      [
       ("1",
        {| question :=
             "Does the organization identify all relevant interested parties (e.g., customers, regulators, suppliers, employees) for the ISMS?";
           options :=
             [("Yes", Goto "2");
              ("No", Terminal (VStr "Major NC"))] |});
       ("2",
        {| question :=
             "Has the organization documented the requirements (legal, regulatory, contractual) of these interested parties?";
           options :=
             [("Yes", Goto "3");
              ("No", Terminal (VList ["Major NC"; "Minor NC"]))] |});
       ("3",
        {| question :=
             "Has the organization decided which of these requirements are relevant and to be addressed within the ISMS?";
           options :=
             [("Yes", Goto "4");
              ("No", Terminal (VStr "Major NC"))] |});
       ("4",
        {| question :=
             "Is there documented evidence of how these decisions were made and what was included/excluded?";
           options :=
             [("Comprehensive", Goto "5");
              ("Partial", Terminal (VList ["Minor NC"; "OFI"]))] |});
       ("5",
        {| question :=
             "Are relevant stakeholders (e.g., leadership, ISMS team) aware of which requirements must be met?";
           options :=
             [("Yes", Terminal (VStr "Complied"));
              ("No", Terminal (VStr "Minor NC"))] |})
      ] |});
  ("4.3",
   {| title := "Determining the scope of the information security management system";
      steps :=
      [
       ("1",
        {| question :=
             "Does the organization have a formal or informal process to define the boundaries and applicability of the ISMS?";
           options :=
             [("Yes", Goto "2");
              ("No", Terminal (VStr "Major NC"))] |});
       ("2",
        {| question :=
             "Did the organization factor in the external/internal issues (4.1) and interested party requirements (4.2) when defining scope?";
           options :=
             [("Yes", Goto "3");
              ("No", Terminal (VList ["Minor NC"; "Major NC"]))] |});
       ("3",
        {| question :=
             "Does the scope account for activities performed by external parties (outsourcers, partners, vendors) that could affect information security?";
           options :=
             [("Yes", Goto "4");
              ("No", Terminal (VList ["Minor NC"; "Major NC"]))] |});
       ("4",
        {| question :=
             "Is the scope documented (e.g., in a formal ISMS scope statement) and accessible to relevant stakeholders?";
           options :=
             [("Yes", Goto "5");
              ("No", Terminal (VStr "Minor NC"))] |});
       ("5",
        {| question :=
             "Does the documented scope clearly specify all locations, assets, and processes included (and excluded), as well as justifications?";
           options :=
             [("Yes", Terminal (VStr "Complied"));
              ("Partial", Terminal (VList ["OFI"; "Minor NC"]))] |})
      ] |});
  ("4.4",
   {| title := "Information security management system";
      steps :=
      [
       ("1",
        {| question :=
             "Has the organization established and implemented an ISMS framework (policies, processes, responsibilities) in line with Clause 4.1–4.3?";
           options :=
             [("Yes", Goto "2");
              ("No", Terminal (VStr "Major NC"))] |});
       ("2",
        {| question :=
             "Is there a mechanism for maintaining the ISMS and updating it as changes occur (e.g., new risks, new technologies)?";
           options :=
             [("Yes", Goto "3");
              ("No", Terminal (VStr "Minor NC"))] |});
       ("3",
        {| question :=
             "Does the organization document how various processes interact and support information security objectives?";
           options :=
             [("Fully", Goto "4");
              ("Partially", Terminal (VList ["OFI"; "Minor NC"]))] |});
       ("4",
        {| question :=
             "Are all ISO 27001 clauses (5–10) planned for or already integrated into the ISMS (not just Clause 4)?";
           options :=
             [("Yes", Goto "5");
              ("No", Terminal (VStr "Minor NC"))] |});
       ("5",
        {| question :=
             "Is the ISMS documentation (manual, procedures, records) readily available to those who need it?";
           options :=
             [("Yes", Terminal (VStr "Complied"));
              ("No", Terminal (VList ["OFI"; "Minor NC"]))] |})
      ] |})
  ].

(** decision_tree.py:170-175.  [decision_trees.get] gives [None] for an
    unknown clause; a clause dict is never empty, so [not tree] is the
    test for [None]. *)
Definition get_question (clause_id step : string) : M string :=
  dt <- read_global ;;
  match dict_get dt clause_id with
  | None => raise KeyError
  | Some tree =>
      if negb (dict_contains (steps tree) step) then raise KeyError
      else
        s <- lift (subscript (steps tree) step) ;;
        ret (question s)
  end.

(** decision_tree.py:178-181. *)
Definition get_options (clause_id step : string) : M (list string) :=
  dt <- read_global ;;
  tree <- lift (subscript dt clause_id) ;;
  s <- lift (subscript (steps tree) step) ;;
  let opts := options s in
  ret (dict_keys opts).

(** decision_tree.py:184-201. *)
Definition evaluate_answer (clause_id step answer : string) : M result :=
  dt <- read_global ;;
  tree <- lift (subscript dt clause_id) ;;
  s <- lift (subscript (steps tree) step) ;;
  let opts := options s in
  if negb (dict_contains opts answer) then raise ValueError
  else
    tgt <- lift (subscript opts answer) ;;
    match tgt with
    | Goto next_step => ret (NextStep next_step)
    | Terminal verdict => ret (VerdictDict verdict)
    end.

(** The outcome of a call made against the static graph. *)
Definition run {A : Type} (m : M A) : exn + A := fst (m decision_trees).

(** The clause and step exist in graph [g]. *)
Definition has_step (g : store) (clause_id step : string) : Prop :=
  exists tree s,
    dict_get g clause_id = Some tree /\ dict_get (steps tree) step = Some s.

(** Every [Goto] of clause [c] names a step of [c]. *)
Definition no_dangling (c : clause) : Prop :=
  forall sid s a nxt,
    In (sid, s) (steps c) -> In (a, Goto nxt) (options s) ->
    exists s', dict_get (steps c) nxt = Some s'.

Definition check_no_dangling (c : clause) : bool :=
  forallb
    (fun '(_, s) =>
       forallb
         (fun '(_, t) =>
            match t with
            | Goto nxt => dict_contains (steps c) nxt
            | Terminal _ => true
            end)
         (options s))
    (steps c).

(** From [step] of clause [clause_id], whatever option is chosen at each
    step, a verdict is returned after at most [n] answers: the step
    exists, offers at least one option, and every option either ends the
    clause or leads to a step from which [n - 1] answers suffice. *)
Fixpoint terminates_within (clause_id step : string) (n : nat) : Prop :=
  match n with
  | O => False
  | S n' =>
      exists opts,
        run (get_options clause_id step) = inr opts /\
        opts <> [] /\
        forall a, In a opts ->
          (exists v, run (evaluate_answer clause_id step a) = inr (VerdictDict v)) \/
          (exists nxt,
              run (evaluate_answer clause_id step a) = inr (NextStep nxt) /\
              terminates_within clause_id nxt n')
  end.

(** The same, decided by running the engine over every option. *)
Fixpoint check_terminates (clause_id step : string) (n : nat) : bool :=
  match n with
  | O => false
  | S n' =>
      match run (get_options clause_id step) with
      | inl _ => false
      | inr [] => false
      | inr opts =>
          forallb
            (fun a =>
               match run (evaluate_answer clause_id step a) with
               | inr (VerdictDict _) => true
               | inr (NextStep nxt) => check_terminates clause_id nxt n'
               | inl _ => false
               end)
            opts
      end
  end.

End DecisionTree.

(* ===================================================================== *)
(** * llm_assessment.py *)
(* ===================================================================== *)

Module LlmAssessment.

(** What [json.loads] returns. *)
Inductive json : Type :=
| JNull
| JBool (b : bool)
| JInt (z : Z)
| JFloat (x : float)
| JStr (s : string)
| JList (l : list json)
| JDict (d : list (string * json)).

(** [bool(j)], the test the operator [or] applies. *)
Definition truthy (j : json) : bool :=
  match j with
  | JNull => false
  | JBool b => b
  | JInt z => negb (z =? 0)%Z
  | JFloat x => negb (x =? 0)%float
  | JStr s => negb (is_empty s)
  | JList l => match l with [] => false | _ :: _ => true end
  | JDict d => match d with [] => false | _ :: _ => true end
  end.

(** [j.get(k, default)]: only a dict has the method. *)
Definition get_or (j : json) (k : string) (default : json) : exn + json :=
  match j with
  | JDict d =>
      match dict_get d k with
      | Some v => inr v
      | None => inr default
      end
  | _ => inl AttributeError
  end.

(** The float an operand is compared as against a float threshold.  An
    [int] is rounded to the nearest float, which orders it against each
    threshold of [utils.py] as its exact value does; [True] and [False]
    are 1 and 0; anything else cannot be compared with a float. *)
Definition number_of (j : json) : exn + float :=
  match j with
  | JFloat x => inr x
  | JInt z => inr (SF2Prim (binary_normalize prec emax z 0 false))
  | JBool b => inr (if b then 1%float else 0%float)
  | _ => inl TypeError
  end.

Definition then_ {A B : Type} (r : exn + A) (k : A -> exn + B) : exn + B :=
  match r with
  | inl e => inl e
  | inr a => k a
  end.

Definition ge_float (j : json) (t : float) : exn + bool :=
  then_ (number_of j) (fun x => inr (Utils.fge x t)).
Definition lt_float (j : json) (t : float) : exn + bool :=
  then_ (number_of j) (fun x => inr (Utils.flt x t)).

(** [a and b] and [a or b] with [b] evaluated only when needed. *)
Definition and_then (a : exn + bool) (b : exn + bool) : exn + bool :=
  then_ a (fun x => if x then b else inr false).
Definition or_else (a : exn + bool) (b : exn + bool) : exn + bool :=
  then_ a (fun x => if x then inr true else b).

(** The body of [utils.score_to_verdict] (utils.py:18-24) on operands
    taken from a JSON reply, which need not be floats. *)
Definition score_to_verdict_dyn (relevance completeness : json) : exn + string :=
  then_ (and_then (ge_float relevance Utils.COMPLIED_THRESHOLD)
                  (ge_float completeness Utils.COMPLIED_THRESHOLD))
    (fun both_high =>
  if both_high then inr "Complied" else
  then_ (or_else (lt_float relevance Utils.MAJOR_NC_THRESHOLD)
                 (lt_float completeness Utils.MAJOR_NC_THRESHOLD))
    (fun one_low =>
  if one_low then inr "Major NC" else
  then_ (and_then (ge_float relevance Utils.MINOR_NC_THRESHOLD)
                  (ge_float completeness Utils.MINOR_NC_THRESHOLD))
    (fun both_fair =>
  if both_fair then inr "Minor NC" else inr "Opportunity for Improvement"))).

(** The keyword arguments of [client.chat.completions.create]. *)
Record request : Type := {
  model : string;
  messages : list (string * string);
  temperature : Z;
  max_tokens : Z;
  stream : bool
}.

(** What the function does to the outside: a call of the remote model,
    a line printed. *)
Inductive event : Type :=
| ApiCall (r : request)
| Printed (line : string).

Definition nl : string := String (ascii_of_nat 10) EmptyString.
Definition dq : string := String double_quote EmptyString.

(** llm_assessment.py:33-38. *)
Definition CLAUSE_DESCRIPTIONS : dict string :=
  [("4.1",
    "Understanding the organization and its context requires identifying external and internal issues relevant to the organization's purpose that affect its ability to achieve intended ISMS outcomes.");
   ("4.2",
    "Understanding the needs and expectations of interested parties requires determining relevant stakeholders and their requirements.");
   ("4.3",
    "Determining the scope of the ISMS requires defining its boundaries and applicability.");
   ("4.4",
    "The ISMS must be established, implemented, maintained and continually improved in accordance with ISO 27001.")].

(** llm_assessment.py:101-117. *)
Definition system_prompt : string :=
  String.concat nl
    [EmptyString;
     "You are an ISO 27001 auditor assessing a user's open-ended answer.";
     EmptyString;
     "Evaluate the response for relevance and completeness regarding the given clause.";
     EmptyString;
     "**IMPORTANT:** Output ONLY a valid JSON object using this exact schema:";
     "{";
     ("  " ++ dq ++ "scores" ++ dq ++ ": {")%string;
     ("    " ++ dq ++ "relevance" ++ dq ++ ": <0.0-1.0>,")%string;
     ("    " ++ dq ++ "completeness" ++ dq ++ ": <0.0-1.0>")%string;
     "  },";
     ("  " ++ dq ++ "verdict" ++ dq ++ ": " ++ dq ++ "Complied|Minor NC|Opportunity for Improvement|Major NC" ++ dq ++ ",")%string;
     ("  " ++ dq ++ "feedback" ++ dq ++ ": " ++ dq ++ "<detailed constructive feedback>" ++ dq)%string;
     "}";
     EmptyString;
     "Do not add any explanation or notes. Ensure the JSON is valid and fully populated.";
     EmptyString].

(** The value returned at llm_assessment.py:96. *)
Definition no_response : json * json * json :=
  (JStr "Major NC",
   JDict [("relevance", JFloat 0%float); ("completeness", JFloat 0%float)],
   JStr "No response provided").

Section Collaborators.

(** The remote model: given what happened so far and a request, the
    [content] of the first choice ([None] allowed), or an exception. *)
Variable client_create : list event -> request -> exn + option string.

(** [json.loads]; [None] is [JSONDecodeError]. *)
Variable json_loads : string -> option json.

(** llm_assessment.py:18-31. *)
Definition safe_load_json (content context : string) : exn + json :=
  let s := strip content in
  let s :=
    if String.prefix "```" s
    then strip (rstrip_chars "```" (lstrip_chars "json" (lstrip_chars "```" s)))
    else s in
  if is_empty s then inl ValueError
  else
    match json_loads s with
    | Some j => inr j
    | None => inl ValueError
    end.

(** llm_assessment.py:139-144, the reading of a parsed reply. *)
Definition read_reply (result : json) : exn + (json * json * json) :=
  then_ (get_or result "scores" (JDict [])) (fun scores =>
  then_ (get_or result "verdict" JNull) (fun stated =>
  then_ (if truthy stated then inr stated
         else
           then_ (get_or scores "relevance" (JInt 0)) (fun relevance =>
           then_ (get_or scores "completeness" (JInt 0)) (fun completeness =>
           then_ (score_to_verdict_dyn relevance completeness) (fun v =>
           inr (JStr v))))) (fun verdict =>
  then_ (get_or result "feedback" (JStr EmptyString)) (fun feedback =>
  inr (verdict, scores, feedback))))).

(** llm_assessment.py:88-147.  The function takes the events so far and
    returns them with its own added.  [user_response] and
    [document_context] may be [None]. *)
Definition evaluate_open_text_compliance
    (clause_id : string) (user_response document_context : option string)
    (log : list event) : (exn + (json * json * json)) * list event :=
  let clause_desc :=
    match dict_get CLAUSE_DESCRIPTIONS clause_id with
    | Some d => d
    | None => ("ISO 27001 Clause " ++ clause_id)%string
    end in
  match user_response with
  | None => (inr no_response, log)
  | Some user_response =>
      if is_empty user_response || is_empty (strip user_response)
      then (inr no_response, log)
      else
        let user_response :=
          if (4000 <? String.length user_response)%nat
          then (String.substring 0 4000 user_response ++ "...")%string
          else user_response in
        let messages :=
          [("system", system_prompt);
           ("user", ("Clause " ++ clause_id ++ ": " ++ clause_desc)%string);
           ("user", ("User response:" ++ nl ++ nl ++ user_response)%string)] in
        let messages :=
          match document_context with
          | Some d =>
              if is_empty d then messages
              else messages ++ [("user", ("Supporting docs:" ++ nl ++ nl ++ d)%string)]
          | None => messages
          end in
        let req :=
          {| model := "deepseek-chat"; messages := messages;
             temperature := 0; max_tokens := 800; stream := false |} in
        let log := log ++ [ApiCall req] in
        match client_create log req with
        | inl _ => (inl RuntimeError, log)
        | inr content =>
            let raw :=
              match content with
              | Some c => c
              | None => EmptyString
              end in
            let log :=
              log ++ [Printed ("[DEBUG] evaluate_open_text_compliance raw for "
                               ++ py_repr clause_id ++ ":" ++ nl ++ py_repr raw)%string] in
            match
              then_ (safe_load_json raw
                       ("evaluate_open_text_compliance(" ++ clause_id ++ ")")%string)
                    read_reply
            with
            | inl _ => (inl RuntimeError, log)
            | inr answer => (inr answer, log)
            end
        end
  end.

End Collaborators.

End LlmAssessment.

(* ===================================================================== *)
(** * app.py *)
(* ===================================================================== *)

Module App.

Import DecisionTree.
Local Open Scope tree_scope.

(** app.py:56-59. *)
Definition is_terminal_step (cid step : string) : M bool :=
  dt <- read_global ;;
  tree <- lift (subscript dt cid) ;;
  s <- lift (subscript (steps tree) step) ;;
  let current_options := options s in
  ret (existsb
         (fun tgt => match tgt with Terminal _ => true | Goto _ => false end)
         (dict_values current_options)).

(** app.py:65. *)
Definition clause_ids : list string := dict_keys decision_trees.

(** The entries of [st.session_state] the structured assessment of one
    clause reads and writes. *)
Record session : Type := {
  step : string;
  responses : dict value;
  last_verdict : bool
}.

(** app.py:15-17 and 43-44: the state in which a clause begins. *)
Definition begin_clause (responses : dict value) : session :=
  {| step := "1"; responses := responses; last_verdict := false |}.

(** app.py:293-310: one submitted choice.  Once the verdict is in, the
    form is no longer shown and nothing changes. *)
Definition submit (cid choice : string) (s : session) : exn + session :=
  if last_verdict s then inr s
  else
    match run (evaluate_answer cid (step s) choice) with
    | inl e => inl e
    | inr (VerdictDict verdict) =>
        inr {| step := step s;
               responses := dict_set (responses s) cid verdict;
               last_verdict := true |}
    | inr (NextStep next_step) =>
        inr {| step := next_step;
               responses := responses s;
               last_verdict := false |}
    end.

(** A user answering one form after the other. *)
Definition play (cid : string) (choices : list string) (s : session)
    : exn + session :=
  for_each (fun s choice => submit cid choice s) choices s.

(** app.py:141. *)
Definition verdict_counts_init : dict Z :=
  [("Complied", 0%Z); ("Minor NC", 0%Z);
   ("Opportunity for Improvement", 0%Z); ("Major NC", 0%Z)].

(** app.py:143-144: a list verdict is replaced by its first element. *)
Definition primary (verdict : value) : exn + value :=
  match verdict with
  | VList [] => inl IndexError
  | VList (first :: _) => inr (VStr first)
  | _ => inr verdict
  end.

(** app.py:143-146, the body of the counting loop. *)
Definition count_step (verdict_counts : dict Z) (item : string * value)
    : exn + dict Z :=
  let '(cid, verdict) := item in
  match primary verdict with
  | inl e => inl e
  | inr VNone => inr verdict_counts
  | inr (VList _) => inl TypeError
  | inr (VStr verdict) =>
      if dict_contains verdict_counts verdict then
        match subscript verdict_counts verdict with
        | inl e => inl e
        | inr n => inr (dict_set verdict_counts verdict (n + 1)%Z)
        end
      else inr verdict_counts
  end.

(** app.py:141-146 over the items of [st.session_state.responses]. *)
Definition verdict_counts (responses : dict value) : exn + dict Z :=
  for_each count_step responses verdict_counts_init.

(** app.py:229-234, the lines written under Quick Recommendations. *)
Definition quick_recommendations (responses : dict value) : list string :=
  let all_recs :=
    fold_left
      (fun all_recs '(cid, verdict) =>
         let analysis := [("clause", VStr cid); ("verdict", verdict)] in
         all_recs ++ Utils.generate_recommendations analysis)
      responses [] in
  dedup all_recs.

(** app.py:237-240. *)
Definition mitigation_checklist (responses : dict value) : list string :=
  Utils.generate_checklist
    (map (fun '(cid, verdict) => [("clause", VStr cid); ("verdict", verdict)])
         responses).








(** The number of items whose primary is, letter for letter, [name]. *)
Definition occurrences (name : string) (responses : dict value) : Z :=
  Z.of_nat
    (List.length
       (filter
          (fun '(_, verdict) =>
             match primary verdict with
             | inr (VStr k) => String.eqb k name
             | _ => false
             end)
          responses)).


End App.

(* ===================================================================== *)
(** * llm_assessment.py: the review of an uploaded document *)
(* ===================================================================== *)

Module Evidence.

Import LlmAssessment.


Section Collaborators.

Variable client_create : list event -> request -> exn + option string.
Variable json_loads : string -> option json.


End Collaborators.



End Evidence.

(* ===================================================================== *)
(** * app.py: the pages of a structured assessment *)
(* ===================================================================== *)

Module Flow.

Import DecisionTree.

(** The keys of [st.session_state] (app.py:12-26). *)
Record page : Type := {
  clause_idx : nat;
  step : string;
  responses : dict value;
  last_verdict : bool;
  open_ended_responses : dict string;
  evidence_analysis : dict LlmAssessment.json;
  previous_answers : dict string;
  form_submitted : bool;
  show_ai_assistant : bool;
  assessment_mode : string
}.

(** app.py:12-26 on a session that has no key yet. *)
Definition init_session_state : page :=
  {| clause_idx := 0; step := "1"; responses := []; last_verdict := false;
     open_ended_responses := []; evidence_analysis := [];
     previous_answers := []; form_submitted := false;
     show_ai_assistant := false; assessment_mode := "structured" |}.

(** app.py:33-38 and the run that follows: eight keys are deleted and
    [init_session_state] sets them again; the assistant flag and the
    mode are not among them. *)
Definition restart_assessment (p : page) : page :=
  {| clause_idx := 0; step := "1"; responses := []; last_verdict := false;
     open_ended_responses := []; evidence_analysis := [];
     previous_answers := []; form_submitted := false;
     show_ai_assistant := show_ai_assistant p;
     assessment_mode := assessment_mode p |}.

(** app.py:41-45. *)
Definition next_clause (p : page) : page :=
  {| clause_idx := clause_idx p + 1; step := "1"; responses := responses p;
     last_verdict := false;
     open_ended_responses := open_ended_responses p;
     evidence_analysis := evidence_analysis p;
     previous_answers := previous_answers p; form_submitted := false;
     show_ai_assistant := show_ai_assistant p;
     assessment_mode := assessment_mode p |}.

(** app.py:48-49. *)
Definition toggle_ai_assistant (p : page) : page :=
  {| clause_idx := clause_idx p; step := step p; responses := responses p;
     last_verdict := last_verdict p;
     open_ended_responses := open_ended_responses p;
     evidence_analysis := evidence_analysis p;
     previous_answers := previous_answers p;
     form_submitted := form_submitted p;
     show_ai_assistant := negb (show_ai_assistant p);
     assessment_mode := assessment_mode p |}.

(** app.py:52-53. *)
Definition switch_assessment_mode (mode : string) (p : page) : page :=
  {| clause_idx := clause_idx p; step := step p; responses := responses p;
     last_verdict := last_verdict p;
     open_ended_responses := open_ended_responses p;
     evidence_analysis := evidence_analysis p;
     previous_answers := previous_answers p;
     form_submitted := form_submitted p;
     show_ai_assistant := show_ai_assistant p;
     assessment_mode := mode |}.

(** app.py:66. *)
Definition total_clauses : nat := List.length App.clause_ids.

(** What the user can do on a page of the structured assessment. *)
Inductive click : Type :=
| ClickRestart
| ClickAssistant
| ClickStructured
| ClickOpenEnded
| SubmitChoice (choice : string)
| ClickNext.

(** app.py:289-314: the structured form is submitted with [choice].  The
    question, the options and the terminal flag are read to draw the
    form; the asked question is remembered with the choice; the answer is
    evaluated as in [App.submit]. *)
Definition submit_choice (cid choice : string) (p : page) : exn + page :=
  match run (get_question cid (step p)) with
  | inl e => inl e
  | inr question =>
  match run (get_options cid (step p)) with
  | inl e => inl e
  | inr options =>
  match run (App.is_terminal_step cid (step p)) with
  | inl e => inl e
  | inr terminal =>
  match App.submit cid choice
          {| App.step := step p; App.responses := responses p;
             App.last_verdict := last_verdict p |} with
  | inl e => inl e
  | inr s =>
      inr {| clause_idx := clause_idx p;
             step := App.step s;
             responses := App.responses s;
             last_verdict := App.last_verdict s;
             open_ended_responses := open_ended_responses p;
             evidence_analysis := evidence_analysis p;
             previous_answers := dict_set (previous_answers p) question choice;
             form_submitted := false;
             show_ai_assistant := show_ai_assistant p;
             assessment_mode := assessment_mode p |}
  end end end end.

(** One run of the script for one click.  The two buttons of the header
    are on every page (app.py:72-78); the mode buttons, the form and the
    button to the next clause are on the page of a clause
    (app.py:248-428), the form only in structured mode before the verdict
    and the button to the next clause only after it. *)
Definition handle (p : page) (c : click) : exn + page :=
  match c with
  | ClickRestart => inr (restart_assessment p)
  | ClickAssistant => inr (toggle_ai_assistant p)
  | ClickStructured =>
      if (clause_idx p <? total_clauses)%nat
      then inr (switch_assessment_mode "structured" p) else inr p
  | ClickOpenEnded =>
      if (clause_idx p <? total_clauses)%nat
      then inr (switch_assessment_mode "open_ended" p) else inr p
  | SubmitChoice choice =>
      match nth_error App.clause_ids (clause_idx p) with
      | None => inr p
      | Some cid =>
          if String.eqb (assessment_mode p) "structured" && negb (last_verdict p)
          then submit_choice cid choice p
          else inr p
      end
  | ClickNext =>
      if (clause_idx p <? total_clauses)%nat && last_verdict p
      then inr (next_clause p) else inr p
  end.

(** A user clicking through the pages. *)
Definition browse (clicks : list click) (p : page) : exn + page :=
  for_each handle clicks p.

(** The number of clauses that have their verdict. *)
Definition finished (p : page) : nat :=
  clause_idx p + (if last_verdict p then 1 else 0).

(** What every page of a structured assessment satisfies: the recorded
    verdicts are those of the first [finished] clauses, in their order;
    and while a clause is being answered its current step is one from
    which a verdict is reached. *)
Definition on_track (p : page) : Prop :=
  dict_keys (responses p) = firstn (finished p) App.clause_ids
  /\ finished p <= total_clauses
  /\ forall cid,
       nth_error App.clause_ids (clause_idx p) = Some cid ->
       last_verdict p = false ->
       exists n, terminates_within cid (step p) n.

End Flow.

(* ===================================================================== *)
(** * Orders read off the thresholds *)
(* ===================================================================== *)

Module Scale.

(** The place of a verdict in the sequence the scores climb through as
    the lower of the two passes 0.6, 0.7 and 0.85 (utils.py:18-24):
    Major NC, Opportunity for Improvement, Minor NC, Complied. *)
Definition rung (verdict : string) : nat :=
  if String.eqb verdict "Complied" then 3
  else if String.eqb verdict "Minor NC" then 2
  else if String.eqb verdict "Opportunity for Improvement" then 1
  else 0.

(** The sum of the counters of a summary. *)
Definition total (counts : dict Z) : Z :=
  fold_right Z.add 0%Z (dict_values counts).

(** The primary of a recorded verdict is spelled as a counter name. *)
Definition spelled_as_counter (verdict : value) : bool :=
  match App.primary verdict with
  | inr (VStr k) => dict_contains App.verdict_counts_init k
  | _ => false
  end.

End Scale.

(* ===================================================================== *)
(** * Properties *)
(* ===================================================================== *)

(** ** Python values *)

Lemma value_eqb_eq (a b : value) : value_eqb a b = true <-> a = b.
Proof.
  destruct a as [|s|l], b as [|t|m]; simpl; split; intro H;
    try reflexivity; try discriminate.
  - apply String.eqb_eq in H. now subst.
  - injection H as ->. apply String.eqb_refl.
  - destruct (list_eq_dec string_dec l m); [now subst | discriminate].
  - injection H as ->. destruct (list_eq_dec string_dec m m); congruence.
Qed.

Lemma value_eqb_neq (a b : value) : value_eqb a b = false <-> a <> b.
Proof.
  split.
  - intros H E. apply value_eqb_eq in E. congruence.
  - intro N. destruct (value_eqb a b) eqn:E; [|reflexivity].
    apply value_eqb_eq in E. contradiction.
Qed.

Lemma dict_contains_get {V : Type} (d : dict V) (k : string) :
  dict_contains d k = true <-> exists v, dict_get d k = Some v.
Proof.
  unfold dict_contains. destruct (dict_get d k) as [v|].
  - split; [eauto | reflexivity].
  - split; [discriminate | intros [v H]; discriminate].
Qed.

(** A key is found exactly when it is one of the keys. *)
Lemma dict_get_keys {V : Type} (d : dict V) (k : string) :
  (exists v, dict_get d k = Some v) <-> In k (dict_keys d).
Proof.
  induction d as [|[k' v'] d IH]; simpl.
  - split; [intros [v H]; discriminate | contradiction].
  - destruct (String.eqb k k') eqn:E.
    + apply String.eqb_eq in E. subst. split; eauto.
    + apply String.eqb_neq in E. rewrite IH. split; [tauto|].
      intros [H|H]; [congruence | assumption].
Qed.

(** What is found under a key is an entry of the dict. *)
Lemma dict_get_In {V : Type} (d : dict V) (k : string) (v : V) :
  dict_get d k = Some v -> In (k, v) d.
Proof.
  induction d as [|[k' v'] d IH]; simpl; [discriminate|].
  destruct (String.eqb k k') eqn:E.
  - apply String.eqb_eq in E. intros [= ->]. subst. now left.
  - intro H. right. auto.
Qed.

Lemma dedup_loop_In (l seen : list string) (x : string) :
  In x (fold_left
          (fun seen x => if existsb (String.eqb x) seen then seen else seen ++ [x])
          l seen)
  <-> In x seen \/ In x l.
Proof.
  revert seen. induction l as [|y l IH]; intro seen; simpl.
  - tauto.
  - rewrite IH. destruct (existsb (String.eqb y) seen) eqn:E.
    + apply existsb_exists in E. destruct E as [z [Hz Ez]].
      apply String.eqb_eq in Ez. subst z.
      split; [tauto|]. intros [H|[H|H]]; subst; auto.
    + rewrite in_app_iff. simpl. tauto.
Qed.

(** [dict.fromkeys] loses no text and invents none. *)
Lemma dedup_In (l : list string) (x : string) : In x (dedup l) <-> In x l.
Proof. unfold dedup. rewrite dedup_loop_In. simpl. tauto. Qed.

(** ** The scoring fallback *)

Section ScoringFallback.

Import Utils.
Local Open Scope float_scope.

(** C1.  [score_to_verdict] returns a verdict for every pair of floats,
    compared as they are, and the verdict is the one the four rules give
    in their order of precedence: Complied when both scores are at least
    0.85; otherwise Major NC when one is below 0.6; otherwise Minor NC when
    both are at least 0.7; otherwise Opportunity for Improvement.  No other
    verdict satisfies the rules. *)
Theorem score_to_verdict_first_match (relevance completeness : float) :
  scoring_rule relevance completeness (score_to_verdict relevance completeness)
  /\ forall v : string,
       scoring_rule relevance completeness v ->
       v = score_to_verdict relevance completeness.
Proof.
  unfold score_to_verdict, fge, flt,
    COMPLIED_THRESHOLD, MAJOR_NC_THRESHOLD, MINOR_NC_THRESHOLD.
  destruct (0.85 <=? relevance) eqn:R1, (0.85 <=? completeness) eqn:C1,
           (relevance <? 0.6) eqn:R2, (completeness <? 0.6) eqn:C2,
           (0.7 <=? relevance) eqn:R3, (0.7 <=? completeness) eqn:C3;
    cbn [andb orb];
    (split;
     [ constructor; unfold rule_complied, rule_major, rule_minor;
       intuition congruence
     | intros v Hv; inversion Hv;
       unfold rule_complied, rule_major, rule_minor in *;
       intuition congruence ]).
Qed.

(** C4, as the code has it.  One score exactly 0.7 and the other 0.95 is
    Minor NC; both scores exactly 0.6 is Opportunity for Improvement. *)
Theorem score_to_verdict_boundaries :
  score_to_verdict 0.7 0.95 = "Minor NC"%string
  /\ score_to_verdict 0.6 0.6 = "Opportunity for Improvement"%string.
Proof. split; reflexivity. Qed.

(** C4, as the specification lists the two vectors: they do not hold. *)
Lemma score_to_verdict_boundaries_not_as_listed :
  ~ (score_to_verdict 0.7 0.95 = "Opportunity for Improvement"%string
     /\ score_to_verdict 0.6 0.6 = "Minor NC"%string).
Proof.
  intros [H _]. vm_compute in H. discriminate H.
Qed.

(** Scores outside [0, 1], infinities and NaN are taken as they come. *)
Example score_to_verdict_unvalidated :
  score_to_verdict 2.5 1.5 = "Complied"%string
  /\ score_to_verdict (-1) 0.9 = "Major NC"%string
  /\ score_to_verdict infinity 0.75 = "Minor NC"%string
  /\ score_to_verdict nan nan = "Opportunity for Improvement"%string.
Proof. repeat split; reflexivity. Qed.

End ScoringFallback.

(** ** Recommendations *)

Section Recommendations.

Import Utils.

(** The branch the source reaches last and labels Major NC. *)
Lemma generate_recommendations_else (analysis : dict value) :
  get analysis "verdict" <> VStr "Complied" ->
  get analysis "verdict" <> VStr "Minor NC" ->
  get analysis "verdict" <> VStr "Opportunity for Improvement" ->
  generate_recommendations analysis = [rec_major_1; rec_major_2].
Proof.
  intros H1 H2 H3. unfold generate_recommendations.
  apply value_eqb_neq in H1, H2, H3.
  now rewrite H1, H2, H3.
Qed.

(** C6, as the code has it.  For an analysis whose verdict is Complied
    the recommendations are one line, the text of utils.py:45. *)
Theorem generate_recommendations_complied (analysis : dict value) :
  dict_get analysis "verdict" = Some (VStr "Complied") ->
  generate_recommendations analysis =
    ["Pertahankan praktik yang telah berjalan dengan baik."].
Proof.
  intro H. unfold generate_recommendations, get. rewrite H. reflexivity.
Qed.

Lemma generate_recommendations_complied_witness :
  generate_recommendations (generate_gap_analysis "4.1" (VStr "Complied") VNone) =
    ["Pertahankan praktik yang telah berjalan dengan baik."].
Proof.
  apply (generate_recommendations_complied
           (generate_gap_analysis "4.1" (VStr "Complied") VNone)).
  reflexivity.
Defined.

(** C6, as the specification words the line: the code does not return it. *)
Lemma generate_recommendations_complied_not_verbatim :
  generate_recommendations [("clause", VStr "4.1"); ("verdict", VStr "Complied")]
  <> ["Maintain the practices that are already working well."].
Proof. vm_compute. discriminate. Qed.

Lemma all_recs_keeps (responses : dict value) (acc : list string) (x : string) :
  In x acc ->
  In x (fold_left
          (fun all_recs '(cid, verdict) =>
             all_recs ++
             generate_recommendations [("clause", VStr cid); ("verdict", verdict)])
          responses acc).
Proof.
  revert acc. induction responses as [|[c v] responses IH]; intros acc H; simpl.
  - assumption.
  - apply IH. apply in_or_app. now left.
Qed.

Lemma all_recs_collects (responses : dict value) (acc : list string)
    (cid : string) (verdict : value) (x : string) :
  In (cid, verdict) responses ->
  In x (generate_recommendations [("clause", VStr cid); ("verdict", verdict)]) ->
  In x (fold_left
          (fun all_recs '(cid, verdict) =>
             all_recs ++
             generate_recommendations [("clause", VStr cid); ("verdict", verdict)])
          responses acc).
Proof.
  revert acc. induction responses as [|[c v] responses IH]; intros acc Hin Hx.
  - contradiction.
  - simpl. destruct Hin as [E|Hin].
    + injection E as -> ->. apply all_recs_keeps. apply in_or_app. now right.
    + now apply IH.
Qed.

(** C7.  A verdict that is a list equals none of the three verdict texts
    the function tests, so the recommendations of its clause are the two
    lines of the last branch, whatever the list holds; and both lines are
    written under Quick Recommendations on the results page. *)
Theorem compound_verdict_gets_major_recommendations
    (responses : dict value) (cid : string) (compound : list string) :
  In (cid, VList compound) responses ->
  generate_recommendations [("clause", VStr cid); ("verdict", VList compound)]
    = [rec_major_1; rec_major_2]
  /\ In rec_major_1 (App.quick_recommendations responses)
  /\ In rec_major_2 (App.quick_recommendations responses).
Proof.
  intro Hin.
  assert (E : generate_recommendations
                [("clause", VStr cid); ("verdict", VList compound)]
              = [rec_major_1; rec_major_2]).
  { apply generate_recommendations_else; cbn; discriminate. }
  split; [exact E|].
  unfold App.quick_recommendations.
  split; apply dedup_In;
    apply (all_recs_collects responses [] cid (VList compound)); trivial;
    rewrite E; simpl; auto.
Qed.

Lemma compound_verdict_gets_major_recommendations_witness :
  generate_recommendations
    [("clause", VStr "4.1"); ("verdict", VList ["Minor NC"; "OFI"])]
    = [rec_major_1; rec_major_2]
  /\ In rec_major_1
       (App.quick_recommendations
          [("4.1", VList ["Minor NC"; "OFI"]); ("4.2", VStr "Complied")])
  /\ In rec_major_2
       (App.quick_recommendations
          [("4.1", VList ["Minor NC"; "OFI"]); ("4.2", VStr "Complied")]).
Proof.
  apply (compound_verdict_gets_major_recommendations
           [("4.1", VList ["Minor NC"; "OFI"]); ("4.2", VStr "Complied")]
           "4.1" ["Minor NC"; "OFI"]).
  simpl. left. reflexivity.
Defined.

(** The two clauses of the graph's leaves the claim speaks of: primary
    Minor NC and primary OFI both read as the last branch. *)
Example compound_primaries_read_as_major :
  App.quick_recommendations [("4.1", VList ["Minor NC"; "OFI"])]
    = [rec_major_1; rec_major_2]
  /\ App.quick_recommendations [("4.3", VList ["OFI"; "Minor NC"])]
    = [rec_major_1; rec_major_2]
  /\ App.quick_recommendations [("4.2", VStr "Minor NC")]
    = [rec_minor_1; rec_minor_2].
Proof. repeat split; reflexivity. Qed.

End Recommendations.

(** ** The mitigation checklist *)

Section Checklist.

Import Utils.

Lemma checklist_loop (analysis_list : list (dict value)) (acc : list string) :
  fold_left checklist_step analysis_list acc
  = acc ++ map line_of (filter outstanding analysis_list).
Proof.
  revert acc. induction analysis_list as [|a l IH]; intro acc; simpl.
  - now rewrite app_nil_r.
  - rewrite IH. unfold checklist_step at 1. fold (outstanding a).
    destruct (outstanding a); simpl.
    + now rewrite <- app_assoc.
    + reflexivity.
Qed.

Lemma outstanding_iff (a : dict value) :
  outstanding a = true <-> get a "verdict" <> VStr "Complied".
Proof.
  unfold outstanding. rewrite negb_true_iff. apply value_eqb_neq.
Qed.

Lemma filter_outstanding_nil (l : list (dict value)) :
  filter outstanding l = [] <->
  Forall (fun a => get a "verdict" = VStr "Complied") l.
Proof.
  induction l as [|a l IH]; simpl.
  - split; [constructor | reflexivity].
  - destruct (outstanding a) eqn:E.
    + split; [discriminate|]. intro F. inversion F as [|? ? Ha _]. subst.
      apply outstanding_iff in E. contradiction.
    + rewrite IH. split.
      * intro F. constructor; [|assumption].
        destruct (value_eqb (get a "verdict") (VStr "Complied")) eqn:V.
        -- now apply value_eqb_eq.
        -- unfold outstanding in E. rewrite V in E. discriminate.
      * intro F. now inversion F.
Qed.


(** The checklist of the results page for a finished assessment. *)
Example mitigation_checklist_run :
  App.mitigation_checklist
    [("4.1", VList ["Minor NC"; "OFI"]); ("4.2", VStr "Complied");
     ("4.3", VStr "Major NC")]
  = ["Tinjau dan perbaiki klausul 4.1: verdict = ['Minor NC', 'OFI']";
     "Tinjau dan perbaiki klausul 4.3: verdict = Major NC"]
  /\ App.mitigation_checklist [("4.1", VStr "Complied"); ("4.2", VStr "Complied")]
     = [all_complied_message].
Proof. split; reflexivity. Qed.

End Checklist.

(** ** The traversal engine *)

Section Traversal.

Import DecisionTree.

(** Unknown clause: both accessors raise [KeyError]. *)
Lemma unknown_clause (g : store) (clause_id step answer : string) :
  dict_get g clause_id = None ->
  fst (get_options clause_id step g) = inl KeyError
  /\ evaluate_answer clause_id step answer g = (inl KeyError, g).
Proof.
  intro T.
  unfold get_options, evaluate_answer, bind, lift, read_global, subscript.
  now rewrite T.
Qed.

(** Unknown step of a known clause: the same. *)
Lemma unknown_step (g : store) (clause_id step answer : string) (tree : clause) :
  dict_get g clause_id = Some tree ->
  dict_get (steps tree) step = None ->
  fst (get_options clause_id step g) = inl KeyError
  /\ evaluate_answer clause_id step answer g = (inl KeyError, g).
Proof.
  intros T S.
  unfold get_options, evaluate_answer, bind, lift, read_global, subscript.
  now rewrite T, S.
Qed.

(** Known clause and step: the options are the keys of the step's dict,
    and the answer is looked up among them. *)
Lemma known_step (g : store) (clause_id step answer : string)
    (tree : clause) (s : DecisionTree.step) :
  dict_get g clause_id = Some tree ->
  dict_get (steps tree) step = Some s ->
  fst (get_options clause_id step g) = inr (dict_keys (options s))
  /\ evaluate_answer clause_id step answer g =
     (match dict_get (options s) answer with
      | Some (Goto next_step) => inr (NextStep next_step)
      | Some (Terminal verdict) => inr (VerdictDict verdict)
      | None => inl ValueError
      end, g).
Proof.
  intros T S.
  unfold get_options, evaluate_answer, bind, lift, read_global, subscript,
    dict_contains, ret, raise.
  rewrite T, S. simpl. split; [reflexivity|].
  destruct (dict_get (options s) answer) as [[n|v]|]; reflexivity.
Qed.

Lemma get_options_inr (g : store) (clause_id step : string) (opts : list string) :
  fst (get_options clause_id step g) = inr opts ->
  exists tree s,
    dict_get g clause_id = Some tree
    /\ dict_get (steps tree) step = Some s
    /\ opts = dict_keys (options s).
Proof.
  intro H.
  destruct (dict_get g clause_id) as [tree|] eqn:T.
  - destruct (dict_get (steps tree) step) as [s|] eqn:S.
    + destruct (known_step g clause_id step EmptyString tree s T S) as [E _].
      exists tree, s. rewrite E in H. injection H as <-. auto.
    + destruct (unknown_step g clause_id step EmptyString tree T S) as [E _].
      rewrite E in H. discriminate.
  - destruct (unknown_clause g clause_id step EmptyString T) as [E _].
    rewrite E in H. discriminate.
Qed.

(** C2.  In any graph, for a clause and step that exist, [evaluate_answer]
    returns a result exactly when the answer is, as a string, one of the
    labels [get_options] returns, and raises [ValueError] for every other
    string; for a clause or step that does not exist it raises
    [KeyError]. *)
Theorem evaluate_answer_accepts_exactly_the_options
    (g : store) (clause_id step answer : string) :
  (has_step g clause_id step ->
     exists opts,
       fst (get_options clause_id step g) = inr opts
       /\ (In answer opts <->
           exists r, fst (evaluate_answer clause_id step answer g) = inr r)
       /\ (~ In answer opts ->
           fst (evaluate_answer clause_id step answer g) = inl ValueError))
  /\ (~ has_step g clause_id step ->
      fst (get_options clause_id step g) = inl KeyError
      /\ fst (evaluate_answer clause_id step answer g) = inl KeyError).
Proof.
  split.
  - intros [tree [s [T S]]].
    destruct (known_step g clause_id step answer tree s T S) as [Ho Ha].
    exists (dict_keys (options s)). split; [exact Ho|].
    rewrite Ha. cbn [fst]. rewrite <- dict_get_keys.
    destruct (dict_get (options s) answer) as [[n|v]|].
    + repeat split; eauto. intro N. elim N. eauto.
    + repeat split; eauto. intro N. elim N. eauto.
    + repeat split; try reflexivity.
      * intros [v H]. discriminate.
      * intros [r H]. discriminate.
  - intro N. unfold has_step in N.
    destruct (dict_get g clause_id) as [tree|] eqn:T.
    + destruct (dict_get (steps tree) step) as [s|] eqn:S.
      * elim N. eauto.
      * destruct (unknown_step g clause_id step answer tree T S) as [E1 E2].
        now rewrite E1, E2.
    + destruct (unknown_clause g clause_id step answer T) as [E1 E2].
      now rewrite E1, E2.
Qed.

(** Near misses of a label of the static graph are refused. *)
Example evaluate_answer_near_misses :
  run (get_options "4.1" "1") = inr ["Yes"; "No"]
  /\ run (evaluate_answer "4.1" "1" "Yes") = inr (NextStep "2")
  /\ run (evaluate_answer "4.1" "1" "yes") = inl ValueError
  /\ run (evaluate_answer "4.1" "1" "YES") = inl ValueError
  /\ run (evaluate_answer "4.1" "1" " Yes") = inl ValueError
  /\ run (evaluate_answer "4.1" "1" "Yes ") = inl ValueError
  /\ run (evaluate_answer "4.1" "1" EmptyString) = inl ValueError
  /\ run (evaluate_answer "4.1" "6" "Yes") = inl KeyError
  /\ run (evaluate_answer "4.5" "1" "Yes") = inl KeyError.
Proof. repeat split; reflexivity. Qed.

(** A call leaves the graph as it found it. *)
Lemma evaluate_answer_reads_only (g : store) (clause_id step answer : string) :
  evaluate_answer clause_id step answer g
  = (fst (evaluate_answer clause_id step answer g), g).
Proof.
  destruct (dict_get g clause_id) as [tree|] eqn:T.
  - destruct (dict_get (steps tree) step) as [s|] eqn:S.
    + destruct (known_step g clause_id step answer tree s T S) as [_ E].
      now rewrite E.
    + destruct (unknown_step g clause_id step answer tree T S) as [_ E].
      now rewrite E.
  - destruct (unknown_clause g clause_id step answer T) as [_ E].
    now rewrite E.
Qed.

(** C10.  [evaluate_answer] reads the graph and writes nothing: the graph
    after a call is the graph before it, and a second call with the same
    three arguments, made after the first, returns the same next step, the
    same verdict or the same exception. *)
Theorem evaluate_answer_deterministic_and_pure
    (g : store) (clause_id step answer : string) :
  let first := evaluate_answer clause_id step answer g in
  let second := evaluate_answer clause_id step answer (snd first) in
  snd first = g /\ snd second = g /\ fst second = fst first.
Proof.
  cbv zeta.
  rewrite (evaluate_answer_reads_only g clause_id step answer).
  cbn [fst snd].
  rewrite (evaluate_answer_reads_only g clause_id step answer).
  cbn [fst snd]. auto.
Qed.

End Traversal.

(** ** The shape of the static graph *)

Section GraphShape.

Import DecisionTree.

Lemma check_no_dangling_sound (c : clause) :
  check_no_dangling c = true -> no_dangling c.
Proof.
  unfold check_no_dangling, no_dangling.
  intros H sid s a nxt Hs Ha.
  rewrite forallb_forall in H. specialize (H (sid, s) Hs). cbn in H.
  rewrite forallb_forall in H. specialize (H (a, Goto nxt) Ha). cbn in H.
  now apply dict_contains_get.
Qed.

Lemma check_terminates_sound (clause_id : string) (n : nat) :
  forall step,
    check_terminates clause_id step n = true ->
    terminates_within clause_id step n.
Proof.
  induction n as [|n IH]; intros step H; cbn [check_terminates] in H;
    [discriminate|].
  destruct (run (get_options clause_id step)) as [e|opts] eqn:O; [discriminate|].
  destruct opts as [|o opts]; [discriminate|].
  cbn [terminates_within].
  exists (o :: opts). split; [exact O|]. split; [discriminate|].
  intros a Ha. rewrite forallb_forall in H. specialize (H a Ha).
  destruct (run (evaluate_answer clause_id step a)) as [e|[nxt|v]] eqn:E;
    [discriminate | right | left].
  - exists nxt. split; [reflexivity|]. now apply IH.
  - now exists v.
Qed.

(** Allowing more answers never hurts. *)
Lemma terminates_within_more (clause_id : string) (n : nat) :
  forall step,
    terminates_within clause_id step n ->
    terminates_within clause_id step (S n).
Proof.
  induction n as [|n IH]; intros step H; [contradiction|].
  destruct H as [opts [O [N A]]].
  exists opts. split; [exact O|]. split; [exact N|].
  intros a Ha. destruct (A a Ha) as [V|[nxt [E T]]]; [now left|right].
  exists nxt. split; [exact E|]. now apply IH.
Qed.

(** Once the verdict is in, further choices change nothing. *)
Lemma play_after_verdict (cid : string) (choices : list string) (s : App.session) :
  App.last_verdict s = true -> App.play cid choices s = inr s.
Proof.
  intro L. induction choices as [|a choices IH]; [reflexivity|].
  unfold App.play in *. simpl. unfold App.submit at 1. rewrite L. exact IH.
Qed.

(** A choice that is not an option of the current step of the static
    graph raises [ValueError]. *)
Lemma not_an_option (clause_id step a : string) (opts : list string) :
  run (get_options clause_id step) = inr opts ->
  ~ In a opts ->
  run (evaluate_answer clause_id step a) = inl ValueError.
Proof.
  unfold run. intros O N.
  destruct (get_options_inr _ _ _ _ O) as [tree [s [T [S ->]]]].
  destruct (known_step decision_trees clause_id step a tree s T S) as [_ E].
  rewrite E. cbn [fst].
  destruct (dict_get (options s) a) as [t|] eqn:G; [|reflexivity].
  elim N. apply dict_get_keys. eauto.
Qed.

(** From a step that terminates within [n] answers, a user who submits
    at least [n] choices either makes a choice that is not offered, which
    raises [ValueError], or has the verdict of the clause. *)
Lemma terminates_within_play (cid : string) (n : nat) :
  forall (choices : list string) (s : App.session),
    terminates_within cid (App.step s) n ->
    App.last_verdict s = false ->
    n <= List.length choices ->
    match App.play cid choices s with
    | inr s' => App.last_verdict s' = true
    | inl e => e = ValueError
    end.
Proof.
  induction n as [|n IH]; intros choices s T L Hn; [contradiction|].
  destruct choices as [|a choices]; [simpl in Hn; lia|].
  destruct T as [opts [O [_ A]]].
  unfold App.play. simpl. unfold App.submit at 1. rewrite L.
  destruct (in_dec string_dec a opts) as [Ha|Ha].
  - destruct (A a Ha) as [[v E]|[nxt [E T]]]; rewrite E.
    + fold (App.play cid choices
              {| App.step := App.step s;
                 App.responses := dict_set (App.responses s) cid v;
                 App.last_verdict := true |}).
      now rewrite play_after_verdict.
    + apply (IH choices
               {| App.step := nxt; App.responses := App.responses s;
                  App.last_verdict := false |}); simpl in *; [assumption|reflexivity|lia].
  - rewrite (not_an_option cid (App.step s) a opts O Ha). reflexivity.
Qed.

(** C3.  In each clause of the static graph every step id an option leads
    to is a step of that clause; the clause has five steps; from step "1",
    whatever options are chosen, a verdict is returned after at most five
    answers, every step on the way existing and offering at least one
    option; and a user who submits five or more choices has either made a
    choice that was not offered or obtained the verdict. *)
Theorem every_clause_reaches_a_verdict (cid : string) (c : clause) :
  In (cid, c) decision_trees ->
  no_dangling c
  /\ List.length (steps c) = 5
  /\ terminates_within cid "1" (List.length (steps c))
  /\ forall choices : list string,
       List.length (steps c) <= List.length choices ->
       match App.play cid choices (App.begin_clause []) with
       | inr s => App.last_verdict s = true
       | inl e => e = ValueError
       end.
Proof.
  intro H.
  assert (K : check_no_dangling c = true
              /\ List.length (steps c) = 5
              /\ check_terminates cid "1" 5 = true).
  { unfold decision_trees in H. simpl in H.
    destruct H as [E|[E|[E|[E|[]]]]]; injection E as <- <-;
      repeat split; vm_compute; reflexivity. }
  destruct K as [D [N T]].
  split; [now apply check_no_dangling_sound|].
  split; [exact N|]. rewrite N.
  apply check_terminates_sound in T.
  split; [exact T|].
  intros choices Hc.
  apply (terminates_within_play cid 5 choices (App.begin_clause []));
    [exact T | reflexivity | exact Hc].
Qed.

Lemma every_clause_reaches_a_verdict_witness :
  exists c : clause,
    dict_get decision_trees "4.2" = Some c
    /\ no_dangling c
    /\ List.length (steps c) = 5
    /\ terminates_within "4.2" "1" (List.length (steps c))
    /\ forall choices : list string,
         List.length (steps c) <= List.length choices ->
         match App.play "4.2" choices (App.begin_clause []) with
         | inr s => App.last_verdict s = true
         | inl e => e = ValueError
         end.
Proof.
  destruct (dict_get decision_trees "4.2") as [c|] eqn:G; [|discriminate G].
  exists c. split; [reflexivity|].
  apply (every_clause_reaches_a_verdict "4.2" c).
  apply dict_get_In. exact G.
Defined.

(** No dict literal of the graph repeats a key, so reading an association
    list by first match is reading the dict. *)
Example static_graph_keys_distinct :
  distinct (dict_keys decision_trees) = true
  /\ forallb
       (fun '(_, c) =>
          distinct (dict_keys (steps c))
          && forallb (fun '(_, s) => distinct (dict_keys (options s))) (steps c))
       decision_trees = true.
Proof. split; reflexivity. Qed.

(** The clauses are the four of the specification, and no shorter bound
    than five answers holds for any of them. *)
Example clause_ids_and_longest_paths :
  App.clause_ids = ["4.1"; "4.2"; "4.3"; "4.4"]
  /\ forallb (fun cid => negb (check_terminates cid "1" 4)) App.clause_ids = true
  /\ App.play "4.1"
       ["Yes"; "Yes"; "Clear Documentation"; "Regularly Reviewed"; "Yes"]
       (App.begin_clause [])
     = inr {| App.step := "5"; App.responses := [("4.1", VStr "Complied")];
              App.last_verdict := true |}.
Proof. repeat split; reflexivity. Qed.

End GraphShape.

(** ** The verdict summary *)

Section VerdictSummary.

Import App.
Local Open Scope Z_scope.

(** Two lists of counters are equal when their counts are. *)
Ltac same_counters :=
  repeat match goal with
         | |- inr _ = inr _ => apply f_equal
         | |- _ :: _ = _ :: _ => apply f_equal2
         | |- (_, _) = (_, _) => apply f_equal2
         | |- _ => reflexivity || lia
         end.

(** The primary is spelled as a counter name: the loop computes. *)
Ltac spelled IH E :=
  apply String.eqb_eq in E; subst; cbn -[Z.add]; rewrite IH; same_counters.


Lemma occurrences_cons (name cid : string) (verdict : value) (responses : dict value) :
  occurrences name ((cid, verdict) :: responses)
  = (match primary verdict with
     | inr (VStr k) => if String.eqb k name then 1 else 0
     | _ => 0
     end) + occurrences name responses.
Proof.
  unfold occurrences. simpl.
  destruct (primary verdict) as [e|[|k|l]]; try (simpl List.length; lia).
  destruct (String.eqb k name); simpl List.length; lia.
Qed.






(** Each counter is the number of primaries spelled as its name, for
    every list of recorded verdicts in which no list is empty. *)
Lemma counting_loop_by_name (responses : dict value) :
  Forall (fun item => snd item <> VList []) responses ->
  forall a b c d : Z,
    for_each count_step responses
      [("Complied"%string, a); ("Minor NC"%string, b);
       ("Opportunity for Improvement"%string, c); ("Major NC"%string, d)]
    = inr [("Complied"%string, a + occurrences "Complied" responses);
           ("Minor NC"%string, b + occurrences "Minor NC" responses);
           ("Opportunity for Improvement"%string,
            c + occurrences "Opportunity for Improvement" responses);
           ("Major NC"%string, d + occurrences "Major NC" responses)].
Proof.
  induction 1 as [|[cid verdict] responses Hc _ IH]; intros a b c d.
  - cbn. now rewrite !Z.add_0_r.
  - cbn [snd] in Hc. rewrite !occurrences_cons.
    cbn [for_each count_step].
    destruct verdict as [|k|[|k rest]]; [| | contradiction |];
      cbn [primary]; try (rewrite IH; same_counters);
      unfold dict_contains, subscript; cbn [dict_get];
      (destruct (String.eqb k "Complied") eqn:E1; [spelled IH E1|]);
      (destruct (String.eqb k "Minor NC") eqn:E2; [spelled IH E2|]);
      (destruct (String.eqb k "Opportunity for Improvement") eqn:E3;
       [spelled IH E3|]);
      (destruct (String.eqb k "Major NC") eqn:E4; [spelled IH E4|]);
      rewrite IH; same_counters.
Qed.

Lemma verdict_counts_by_name (responses : dict value) :
  Forall (fun item => snd item <> VList []) responses ->
  verdict_counts responses
  = inr [("Complied"%string, occurrences "Complied" responses);
         ("Minor NC"%string, occurrences "Minor NC" responses);
         ("Opportunity for Improvement"%string,
          occurrences "Opportunity for Improvement" responses);
         ("Major NC"%string, occurrences "Major NC" responses)].
Proof.
  intro H. unfold verdict_counts, verdict_counts_init.
  now rewrite (counting_loop_by_name responses H 0 0 0 0).
Qed.

(** An empty list as a recorded verdict has no first element. *)
Example verdict_counts_empty_list :
  verdict_counts [("4.1"%string, VList [])] = inl IndexError.
Proof. reflexivity. Qed.

End VerdictSummary.

(** ** The open-ended evaluation *)

Section OpenEnded.

Import LlmAssessment.

Variable client_create : list event -> request -> exn + option string.
Variable json_loads : string -> option json.

(** On two floats the untyped reading of [score_to_verdict] is the typed
    one. *)
Lemma score_to_verdict_dyn_floats (relevance completeness : float) :
  score_to_verdict_dyn (JFloat relevance) (JFloat completeness)
  = inr (Utils.score_to_verdict relevance completeness).
Proof.
  unfold score_to_verdict_dyn, Utils.score_to_verdict, and_then, or_else,
    ge_float, lt_float, then_, number_of.
  destruct (Utils.fge relevance Utils.COMPLIED_THRESHOLD),
           (Utils.fge completeness Utils.COMPLIED_THRESHOLD),
           (Utils.flt relevance Utils.MAJOR_NC_THRESHOLD),
           (Utils.flt completeness Utils.MAJOR_NC_THRESHOLD),
           (Utils.fge relevance Utils.MINOR_NC_THRESHOLD),
           (Utils.fge completeness Utils.MINOR_NC_THRESHOLD); reflexivity.
Qed.

(** C8.  When the response is missing or is the empty text, the
    open-ended evaluation returns Major NC with relevance 0.0 and
    completeness 0.0 and the note "No response provided", whatever the
    clause, the supporting documents, the remote model and the JSON
    reader are, and it adds no event: no request is sent and nothing is
    printed. *)
Theorem no_response_short_circuits
    (clause_id : string) (user_response document_context : option string)
    (log : list event) :
  user_response = None \/ user_response = Some EmptyString ->
  evaluate_open_text_compliance client_create json_loads
    clause_id user_response document_context log
  = (inr (JStr "Major NC",
          JDict [("relevance", JFloat 0%float); ("completeness", JFloat 0%float)],
          JStr "No response provided"),
     log).
Proof.
  intros [-> | ->]; reflexivity.
Qed.

(** A response of white space only is answered the same way. *)
Lemma blank_response_short_circuits
    (clause_id user_response : string) (document_context : option string)
    (log : list event) :
  strip user_response = EmptyString ->
  evaluate_open_text_compliance client_create json_loads
    clause_id (Some user_response) document_context log
  = (inr no_response, log).
Proof.
  intro B. unfold evaluate_open_text_compliance. rewrite B.
  cbn [is_empty]. now rewrite orb_true_r.
Qed.

(** Any other response sends a request before anything else happens. *)
Lemma real_response_calls_the_model
    (clause_id user_response : string) (document_context : option string)
    (log : list event) :
  strip user_response <> EmptyString ->
  exists (req : request) (later : list event),
    snd (evaluate_open_text_compliance client_create json_loads
           clause_id (Some user_response) document_context log)
    = log ++ ApiCall req :: later.
Proof.
  intro B. unfold evaluate_open_text_compliance.
  assert (E : is_empty user_response || is_empty (strip user_response) = false).
  { destruct user_response as [|c u]; [elim B; reflexivity|].
    destruct (strip (String c u)); [elim B; reflexivity | reflexivity]. }
  rewrite E.
  match goal with
  | |- context [client_create ?l ?r] =>
      exists r; destruct (client_create l r) as [e|content]
  end.
  - exists []. reflexivity.
  - match goal with
    | |- context [then_ ?a ?b] => destruct (then_ a b)
    end; eexists; cbn [snd]; rewrite <- app_assoc; reflexivity.
Qed.

End OpenEnded.

Lemma no_response_short_circuits_witness :
  LlmAssessment.evaluate_open_text_compliance
    (fun _ _ => inl RuntimeError) (fun _ => None)
    "4.1" (Some EmptyString) None []
  = (inr (LlmAssessment.JStr "Major NC",
          LlmAssessment.JDict
            [("relevance", LlmAssessment.JFloat 0%float);
             ("completeness", LlmAssessment.JFloat 0%float)],
          LlmAssessment.JStr "No response provided"),
     []).
Proof.
  apply (no_response_short_circuits
           (fun _ _ => inl RuntimeError) (fun _ => None)
           "4.1" (Some EmptyString) None []).
  right. reflexivity.
Defined.

(** A reply without a verdict is scored by [score_to_verdict]; a stated
    verdict is returned as it is; a reply that is no JSON object raises
    [RuntimeError].  Each run sends one request and prints one line. *)
Example open_ended_replies :
  let ask := fun (reply : LlmAssessment.json) =>
    LlmAssessment.evaluate_open_text_compliance
      (fun _ _ => inr (Some "{}")) (fun _ => Some reply)
      "4.1" (Some "We keep a register of issues.") None [] in
  fst (ask (LlmAssessment.JDict
              [("scores", LlmAssessment.JDict
                            [("relevance", LlmAssessment.JFloat 0.9%float);
                             ("completeness", LlmAssessment.JInt 1)]);
               ("feedback", LlmAssessment.JStr "ok")]))
  = inr (LlmAssessment.JStr "Complied",
         LlmAssessment.JDict
           [("relevance", LlmAssessment.JFloat 0.9%float);
            ("completeness", LlmAssessment.JInt 1)],
         LlmAssessment.JStr "ok")
  /\ fst (ask (LlmAssessment.JDict
                 [("verdict", LlmAssessment.JStr "Minor NC")]))
     = inr (LlmAssessment.JStr "Minor NC", LlmAssessment.JDict [],
            LlmAssessment.JStr EmptyString)
  /\ fst (ask (LlmAssessment.JDict [])) =
     inr (LlmAssessment.JStr "Major NC", LlmAssessment.JDict [],
          LlmAssessment.JStr EmptyString)
  /\ fst (ask (LlmAssessment.JList [])) = inl RuntimeError
  /\ List.length (snd (ask (LlmAssessment.JDict []))) = 2.
Proof. repeat split; vm_compute; reflexivity. Qed.

(** [repr] of a text with a single quote uses double quotes. *)
Example py_repr_quotes :
  py_repr "OFI" = "'OFI'"
  /\ py_repr "it's" = String double_quote ("it's" ++ String double_quote EmptyString)
  /\ py_str (VList ["Minor NC"; "OFI"]) = "['Minor NC', 'OFI']".
Proof. repeat split; reflexivity. Qed.

(* ===================================================================== *)
(** * Further properties *)
(* ===================================================================== *)

(** ** The order of binary64 floats *)

Section FloatOrder.

(** Case analysis on the comparisons of exponents and mantissas. *)
Ltac compare_cases :=
  repeat match goal with
         | |- context [Z.compare ?a ?b] => destruct (Z.compare_spec a b)
         | H : context [Z.compare ?a ?b] |- _ => destruct (Z.compare_spec a b)
         | |- context [Pos.compare_cont Eq ?a ?b] =>
             change (Pos.compare_cont Eq a b) with (Pos.compare a b);
             destruct (Pos.compare_spec a b)
         | H : context [Pos.compare_cont Eq ?a ?b] |- _ =>
             change (Pos.compare_cont Eq a b) with (Pos.compare a b) in H;
             destruct (Pos.compare_spec a b)
         end.

Lemma SFleb_trans (x y z : spec_float) :
  SFleb x y = true -> SFleb y z = true -> SFleb x z = true.
Proof.
  unfold SFleb, SFcompare.
  destruct x as [[]|[]| |[] mx ex], y as [[]|[]| |[] my ey],
           z as [[]|[]| |[] mz ez];
    cbn; try congruence; intros H1 H2; compare_cases; cbn in *;
    try congruence; try lia.
Qed.

Lemma SFleb_ltb_trans (x y z : spec_float) :
  SFleb x y = true -> SFltb y z = true -> SFltb x z = true.
Proof.
  unfold SFleb, SFltb, SFcompare.
  destruct x as [[]|[]| |[] mx ex], y as [[]|[]| |[] my ey],
           z as [[]|[]| |[] mz ez];
    cbn; try congruence; intros H1 H2; compare_cases; cbn in *;
    try congruence; try lia.
Qed.

Local Open Scope float_scope.

Lemma leb_trans (x y z : float) :
  (x <=? y) = true -> (y <=? z) = true -> (x <=? z) = true.
Proof. rewrite !leb_spec. apply SFleb_trans. Qed.

Lemma leb_ltb_trans (x y z : float) :
  (x <=? y) = true -> (y <? z) = true -> (x <? z) = true.
Proof. rewrite leb_spec, !ltb_spec. apply SFleb_ltb_trans. Qed.

(** A score below 0.6 is not at least 0.85. *)
Lemma low_is_not_high (x : float) : (x <? 0.6) = true -> (0.85 <=? x) = false.
Proof.
  intro L. destruct (0.85 <=? x) eqn:H; [|reflexivity].
  pose proof (leb_ltb_trans 0.85 x 0.6 H L) as C. vm_compute in C. discriminate C.
Qed.

(** The rung of the verdict from the outcomes of the three tests. *)
Lemma rung_of_tests (high low fair : bool) :
  Scale.rung
    (if high then "Complied"
     else if low then "Major NC"
     else if fair then "Minor NC" else "Opportunity for Improvement")
  = (if high then 3 else if low then 0 else if fair then 2 else 1)%nat.
Proof. destruct high, low, fair; reflexivity. Qed.

(** The verdict climbs when the tests for a high and a fair score keep
    holding and the test for a low score keeps failing. *)
Lemma rung_of_comparisons (h1 h2 l1 l2 f1 f2 h1' h2' l1' l2' f1' f2' : bool) :
  (h1 = true -> h1' = true) -> (h2 = true -> h2' = true) ->
  (f1 = true -> f1' = true) -> (f2 = true -> f2' = true) ->
  (l1' = true -> l1 = true) -> (l2' = true -> l2 = true) ->
  (Scale.rung
     (if h1 && h2 then "Complied"
      else if l1 || l2 then "Major NC"
      else if f1 && f2 then "Minor NC" else "Opportunity for Improvement")
   <= Scale.rung
     (if h1' && h2' then "Complied"
      else if l1' || l2' then "Major NC"
      else if f1' && f2' then "Minor NC" else "Opportunity for Improvement"))%nat.
Proof.
  intros A1 A2 A3 A4 A5 A6. rewrite !rung_of_tests.
  destruct (h1 && h2) eqn:H.
  - apply andb_prop in H. destruct H as [H1 H2].
    rewrite (A1 H1), (A2 H2). cbn. lia.
  - destruct (l1 || l2) eqn:L; [lia|].
    apply orb_false_elim in L. destruct L as [L1 L2].
    assert (L1' : l1' = false) by (destruct l1'; [rewrite (A5 eq_refl) in L1|]; congruence).
    assert (L2' : l2' = false) by (destruct l2'; [rewrite (A6 eq_refl) in L2|]; congruence).
    rewrite L1', L2'. cbn [orb].
    destruct (h1' && h2'); [destruct (f1 && f2); lia|].
    destruct (f1 && f2) eqn:F.
    + apply andb_prop in F. destruct F as [F1 F2].
      rewrite (A3 F1), (A4 F2). cbn. lia.
    + destruct (f1' && f2'); lia.
Qed.

(** X1.  Raising either score never moves the verdict back in the
    sequence Major NC, Opportunity for Improvement, Minor NC, Complied. *)
Theorem score_to_verdict_monotone (relevance completeness relevance' completeness' : float) :
  (relevance <=? relevance') = true ->
  (completeness <=? completeness') = true ->
  (Scale.rung (Utils.score_to_verdict relevance completeness)
   <= Scale.rung (Utils.score_to_verdict relevance' completeness'))%nat.
Proof.
  intros R C. unfold Utils.score_to_verdict, Utils.fge, Utils.flt,
    Utils.COMPLIED_THRESHOLD, Utils.MAJOR_NC_THRESHOLD, Utils.MINOR_NC_THRESHOLD.
  apply rung_of_comparisons.
  - intro H. exact (leb_trans _ _ _ H R).
  - intro H. exact (leb_trans _ _ _ H C).
  - intro H. exact (leb_trans _ _ _ H R).
  - intro H. exact (leb_trans _ _ _ H C).
  - intro H. exact (leb_ltb_trans _ _ _ R H).
  - intro H. exact (leb_ltb_trans _ _ _ C H).
Qed.

Lemma score_to_verdict_monotone_witness :
  (Scale.rung (Utils.score_to_verdict 0.65 0.9)
   <= Scale.rung (Utils.score_to_verdict 0.75 0.9))%nat.
Proof.
  apply (score_to_verdict_monotone 0.65 0.9 0.75 0.9); reflexivity.
Defined.

(** X2.  When the relevance read from a reply is a number below 0.6, the
    verdict is Major NC whatever stands for the completeness, a value
    that is no number included: the second operand of [or] is not
    evaluated. *)
Theorem low_relevance_decides
    (relevance completeness : LlmAssessment.json) (r : float) :
  LlmAssessment.number_of relevance = inr r ->
  (r <? 0.6) = true ->
  LlmAssessment.score_to_verdict_dyn relevance completeness = inr "Major NC"%string.
Proof.
  intros N L.
  unfold LlmAssessment.score_to_verdict_dyn, LlmAssessment.and_then,
    LlmAssessment.or_else, LlmAssessment.ge_float, LlmAssessment.lt_float,
    LlmAssessment.then_.
  rewrite N. unfold Utils.fge, Utils.flt,
    Utils.COMPLIED_THRESHOLD, Utils.MAJOR_NC_THRESHOLD.
  rewrite (low_is_not_high r L), L. reflexivity.
Qed.

Lemma low_relevance_decides_witness :
  LlmAssessment.score_to_verdict_dyn
    (LlmAssessment.JFloat 0.1) (LlmAssessment.JStr "high")
  = inr "Major NC"%string.
Proof.
  apply (low_relevance_decides
           (LlmAssessment.JFloat 0.1) (LlmAssessment.JStr "high") 0.1);
    reflexivity.
Defined.

(** With the operands the other way round the comparison of the text
    raises. *)
Example low_completeness_does_not_decide :
  LlmAssessment.score_to_verdict_dyn
    (LlmAssessment.JStr "high") (LlmAssessment.JFloat 0.1)
  = inl TypeError.
Proof. reflexivity. Qed.

End FloatOrder.

(** ** The accessors of the graph *)

Section Accessors.

Import DecisionTree.

Lemma get_question_known (g : store) (clause_id step : string)
    (tree : clause) (s : DecisionTree.step) :
  dict_get g clause_id = Some tree ->
  dict_get (steps tree) step = Some s ->
  get_question clause_id step g = (inr (question s), g).
Proof.
  intros T S.
  unfold get_question, bind, lift, read_global, subscript, dict_contains, ret.
  now rewrite T, S.
Qed.

Lemma get_question_unknown (g : store) (clause_id step : string) :
  ~ has_step g clause_id step ->
  get_question clause_id step g = (inl KeyError, g).
Proof.
  intro N.
  unfold get_question, bind, lift, read_global, subscript, dict_contains, raise.
  destruct (dict_get g clause_id) as [tree|] eqn:T; [|reflexivity].
  destruct (dict_get (steps tree) step) as [s|] eqn:S; [|reflexivity].
  elim N. exists tree, s. auto.
Qed.

Lemma has_step_dec (g : store) (clause_id step : string) :
  has_step g clause_id step \/ ~ has_step g clause_id step.
Proof.
  unfold has_step.
  destruct (dict_get g clause_id) as [tree|] eqn:T.
  - destruct (dict_get (steps tree) step) as [s|] eqn:S.
    + left. eauto.
    + right. intros [t [s [E1 E2]]]. congruence.
  - right. intros [t [s [E1 E2]]]. congruence.
Qed.

(** X3.  The three accessors agree on which clause and step exist.
    [get_question], which tests the keys itself, and [get_options], which
    subscripts, return a value exactly for an existing clause and step and
    raise [KeyError] for every other; [evaluate_answer] raises [KeyError]
    exactly for those others; and [get_question] returns the question
    stored in the step. *)
Theorem accessors_agree (g : store) (clause_id step : string) :
  ((exists q, fst (get_question clause_id step g) = inr q)
     <-> has_step g clause_id step)
  /\ ((exists opts, fst (get_options clause_id step g) = inr opts)
     <-> has_step g clause_id step)
  /\ (forall answer,
        fst (evaluate_answer clause_id step answer g) = inl KeyError
        <-> ~ has_step g clause_id step)
  /\ (~ has_step g clause_id step ->
      fst (get_question clause_id step g) = inl KeyError
      /\ fst (get_options clause_id step g) = inl KeyError)
  /\ (forall tree s,
        dict_get g clause_id = Some tree ->
        dict_get (steps tree) step = Some s ->
        fst (get_question clause_id step g) = inr (question s)).
Proof.
  assert (U : ~ has_step g clause_id step ->
              fst (get_options clause_id step g) = inl KeyError
              /\ forall answer,
                   fst (evaluate_answer clause_id step answer g) = inl KeyError).
  { intro N. unfold has_step in N.
    destruct (dict_get g clause_id) as [tree|] eqn:T.
    - destruct (dict_get (steps tree) step) as [s|] eqn:S; [elim N; eauto|].
      split; [|intro answer];
        destruct (unknown_step g clause_id step EmptyString tree T S) as [E1 _];
        [exact E1|].
      destruct (unknown_step g clause_id step answer tree T S) as [_ E2].
      now rewrite E2.
    - split; [|intro answer].
      + now destruct (unknown_clause g clause_id step EmptyString T).
      + destruct (unknown_clause g clause_id step answer T) as [_ E2].
        now rewrite E2. }
  destruct (has_step_dec g clause_id step) as [Y|N].
  - destruct Y as [tree [s [T S]]].
    assert (Y : has_step g clause_id step) by (exists tree, s; auto).
    rewrite (get_question_known g clause_id step tree s T S).
    destruct (known_step g clause_id step EmptyString tree s T S) as [O _].
    rewrite O. cbn [fst].
    split; [|split; [|split; [|split]]].
    + split; eauto.
    + split; eauto.
    + intro answer. split; [|contradiction].
      intros K N. destruct (known_step g clause_id step answer tree s T S) as [_ E].
      rewrite E in K. cbn [fst] in K.
      destruct (dict_get (options s) answer) as [[n|v]|]; discriminate.
    + intro N. contradiction.
    + intros tree' s' T' S'. congruence.
  - destruct (U N) as [O E].
    rewrite (get_question_unknown g clause_id step N), O. cbn [fst].
    split; [|split; [|split; [|split]]].
    + split; [intros [x H]; discriminate | contradiction].
    + split; [intros [x H]; discriminate | contradiction].
    + intro answer. split; [auto | intros _; apply E].
    + auto.
    + intros tree s T S. elim N. exists tree, s. auto.
Qed.

(** In a dict without a repeated key every entry is what its key finds. *)
Lemma distinct_entry {V : Type} (d : dict V) (k : string) (v : V) :
  distinct (dict_keys d) = true -> In (k, v) d -> dict_get d k = Some v.
Proof.
  induction d as [|[k' v'] d IH]; simpl; [contradiction|].
  intros D [E|H].
  - injection E as -> ->. now rewrite String.eqb_refl.
  - apply andb_prop in D. destruct D as [D1 D2].
    destruct (String.eqb k k') eqn:E; [|auto].
    apply String.eqb_eq in E. subst k'.
    apply negb_true_iff in D1.
    assert (X : existsb (String.eqb k) (dict_keys d) = true).
    { apply existsb_exists. exists k. split; [|apply String.eqb_refl].
      unfold dict_keys. apply (in_map fst) in H. exact H. }
    congruence.
Qed.

(** X4.  For a step whose options have distinct labels,
    [is_terminal_step] is true exactly when some answer makes
    [evaluate_answer] return a verdict. *)
Theorem is_terminal_step_iff_some_answer_ends
    (g : store) (cid step : string) (tree : clause) (s : DecisionTree.step) :
  dict_get g cid = Some tree ->
  dict_get (steps tree) step = Some s ->
  distinct (dict_keys (options s)) = true ->
  (fst (App.is_terminal_step cid step g) = inr true
   <-> exists answer v,
         fst (evaluate_answer cid step answer g) = inr (VerdictDict v))
  /\ (fst (App.is_terminal_step cid step g) = inr false
   <-> forall answer v,
         fst (evaluate_answer cid step answer g) <> inr (VerdictDict v)).
Proof.
  intros T S D.
  assert (E : App.is_terminal_step cid step g
              = (inr (existsb
                        (fun tgt => match tgt with Terminal _ => true | Goto _ => false end)
                        (dict_values (options s))), g)).
  { unfold App.is_terminal_step, bind, lift, read_global, subscript, ret.
    now rewrite T, S. }
  rewrite E. cbn [fst].
  assert (A : forall answer,
             fst (evaluate_answer cid step answer g)
             = match dict_get (options s) answer with
               | Some (Goto next_step) => inr (NextStep next_step)
               | Some (Terminal verdict) => inr (VerdictDict verdict)
               | None => inl ValueError
               end).
  { intro answer. destruct (known_step g cid step answer tree s T S) as [_ K].
    now rewrite K. }
  assert (Y : existsb
                (fun tgt => match tgt with Terminal _ => true | Goto _ => false end)
                (dict_values (options s)) = true
              <-> exists answer v,
                    fst (evaluate_answer cid step answer g) = inr (VerdictDict v)).
  { rewrite existsb_exists. split.
    - intros [t [Ht Hv]]. destruct t as [n|v]; [discriminate|].
      unfold dict_values in Ht. apply in_map_iff in Ht.
      destruct Ht as [[a t] [Et Hin]]. cbn in Et. subst t.
      exists a, v. rewrite A. now rewrite (distinct_entry _ _ _ D Hin).
    - intros [a [v H]]. rewrite A in H.
      destruct (dict_get (options s) a) as [[n|v']|] eqn:G; try discriminate.
      exists (Terminal v'). split; [|reflexivity].
      apply dict_get_In in G. unfold dict_values.
      apply (in_map snd) in G. exact G. }
  split.
  - split.
    + intro H. apply Y. congruence.
    + intro H. f_equal. now apply Y.
  - split.
    + intros H a v K.
      assert (X : existsb
                (fun tgt => match tgt with Terminal _ => true | Goto _ => false end)
                (dict_values (options s)) = true) by (apply Y; eauto).
      congruence.
    + intro H. f_equal.
      destruct (existsb _ (dict_values (options s))) eqn:X; [|reflexivity].
      destruct Y as [Y _]. destruct (Y eq_refl) as [a [v K]].
      elim (H a v K).
Qed.

Lemma is_terminal_step_iff_some_answer_ends_witness :
  (fst (App.is_terminal_step "4.1" "3" decision_trees) = inr true
   <-> exists answer v,
         fst (evaluate_answer "4.1" "3" answer decision_trees)
         = inr (VerdictDict v))
  /\ (fst (App.is_terminal_step "4.1" "3" decision_trees) = inr false
   <-> forall answer v,
         fst (evaluate_answer "4.1" "3" answer decision_trees)
         <> inr (VerdictDict v)).
Proof.
  destruct (dict_get decision_trees "4.1") as [tree|] eqn:T; [|discriminate T].
  destruct (dict_get (steps tree) "3") as [s|] eqn:S;
    [|vm_compute in T; injection T as <-; discriminate S].
  apply (is_terminal_step_iff_some_answer_ends
           decision_trees "4.1" "3" tree s T S).
  vm_compute in T. injection T as <-.
  vm_compute in S. injection S as <-. reflexivity.
Defined.

End Accessors.

(** ** The report *)

Section Report.

Import Utils.

Lemma dedup_loop_NoDup (l seen : list string) :
  NoDup seen ->
  NoDup (fold_left
           (fun seen x => if existsb (String.eqb x) seen then seen else seen ++ [x])
           l seen).
Proof.
  revert seen. induction l as [|x l IH]; intros seen N; simpl; [exact N|].
  apply IH. destruct (existsb (String.eqb x) seen) eqn:E; [exact N|].
  apply NoDup_app; [exact N | repeat constructor; intros [] | ].
  intros y Hy [K|[]]. subst y.
  assert (X : existsb (String.eqb x) seen = true).
  { apply existsb_exists. exists x. split; [exact Hy | apply String.eqb_refl]. }
  congruence.
Qed.

Lemma dedup_NoDup (l : list string) : NoDup (dedup l).
Proof. apply dedup_loop_NoDup. constructor. Qed.

(** A text that was seen is not added again. *)
Lemma dedup_loop_absorb (l seen : list string) :
  (forall x, In x l -> In x seen) ->
  fold_left
    (fun seen x => if existsb (String.eqb x) seen then seen else seen ++ [x])
    l seen = seen.
Proof.
  induction l as [|x l IH]; intro H; simpl; [reflexivity|].
  assert (X : existsb (String.eqb x) seen = true).
  { apply existsb_exists. exists x. split; [apply H; now left | apply String.eqb_refl]. }
  rewrite X. apply IH. intros y Hy. apply H. now right.
Qed.

(** New texts are added in their order. *)
Lemma dedup_loop_fresh (l seen : list string) :
  NoDup (seen ++ l) ->
  fold_left
    (fun seen x => if existsb (String.eqb x) seen then seen else seen ++ [x])
    l seen = seen ++ l.
Proof.
  revert seen. induction l as [|x l IH]; intros seen N; simpl.
  - now rewrite app_nil_r.
  - assert (X : existsb (String.eqb x) seen = false).
    { destruct (existsb (String.eqb x) seen) eqn:E; [|reflexivity].
      apply existsb_exists in E. destruct E as [y [Hy Ey]].
      apply String.eqb_eq in Ey. subst y.
      apply NoDup_remove_2 in N. elim N. apply in_or_app. now left. }
    rewrite X. rewrite IH; rewrite <- app_assoc; [reflexivity | exact N].
Qed.

Lemma all_recs_concat (analysis_list : list (dict value)) (acc : list string) :
  fold_left (fun all_recs a => all_recs ++ generate_recommendations a)
            analysis_list acc
  = acc ++ concat (map generate_recommendations analysis_list).
Proof.
  revert acc. induction analysis_list as [|a l IH]; intro acc; simpl.
  - now rewrite app_nil_r.
  - rewrite IH. now rewrite app_assoc.
Qed.

(** The dicts the results page builds for the report functions. *)
Lemma page_all_recs (responses : dict value) (acc : list string) :
  fold_left
    (fun all_recs '(cid, verdict) =>
       all_recs ++
       generate_recommendations [("clause", VStr cid); ("verdict", verdict)])
    responses acc
  = fold_left (fun all_recs a => all_recs ++ generate_recommendations a)
      (map (fun '(cid, verdict) => [("clause", VStr cid); ("verdict", verdict)])
           responses)
      acc.
Proof.
  revert acc. induction responses as [|[cid v] l IH]; intro acc; simpl;
    [reflexivity | apply IH].
Qed.

(** X5.  The recommendations of a report repeat no line and are exactly
    the lines [generate_recommendations] gives for some analysis of the
    list; the gap analysis is the list itself and the checklist is that of
    [generate_checklist]. *)
Theorem compile_report_recommendations (analysis_list : list (dict value)) :
  let report := compile_report analysis_list in
  fst (fst report) = analysis_list
  /\ NoDup (snd (fst report))
  /\ (forall line,
        In line (snd (fst report)) <->
        exists a, In a analysis_list /\ In line (generate_recommendations a))
  /\ snd report = generate_checklist analysis_list.
Proof.
  cbv zeta. unfold compile_report. cbn [fst snd].
  split; [reflexivity|]. split; [apply dedup_NoDup|]. split; [|reflexivity].
  intro line. rewrite dedup_In, all_recs_concat. cbn [app].
  rewrite in_concat. split.
  - intros [r [Hr Hl]]. rewrite in_map_iff in Hr. destruct Hr as [a [Er Ha]].
    subst r. eauto.
  - intros [a [Ha Hl]]. exists (generate_recommendations a). split; [|exact Hl].
    now apply in_map.
Qed.

(** X6.  The results page, which collects the recommendations and the
    checklist itself, shows what [compile_report] returns for the same
    clauses and verdicts. *)
Theorem results_page_shows_the_report (responses : dict value) :
  compile_report
    (map (fun '(cid, verdict) => [("clause", VStr cid); ("verdict", verdict)])
         responses)
  = (map (fun '(cid, verdict) => [("clause", VStr cid); ("verdict", verdict)])
         responses,
     App.quick_recommendations responses,
     App.mitigation_checklist responses).
Proof.
  unfold compile_report, App.quick_recommendations, App.mitigation_checklist.
  now rewrite page_all_recs.
Qed.

(** The recommendations read nothing but the verdict. *)
Lemma generate_recommendations_verdict_only (a b : dict value) :
  get a "verdict" = get b "verdict" ->
  generate_recommendations a = generate_recommendations b.
Proof. unfold generate_recommendations. now intros ->. Qed.

Lemma generate_recommendations_NoDup (a : dict value) :
  NoDup (generate_recommendations a).
Proof.
  unfold generate_recommendations.
  destruct (value_eqb (get a "verdict") (VStr "Complied"));
    [|destruct (value_eqb (get a "verdict") (VStr "Minor NC"));
      [|destruct (value_eqb (get a "verdict") (VStr "Opportunity for Improvement"))]];
    cbn; repeat constructor; cbn; intuition discriminate.
Qed.

(** X7.  When every clause has the same verdict, the lines under Quick
    Recommendations are those of one clause with that verdict, each
    once. *)
Theorem same_verdict_is_recommended_once (responses : dict value) (verdict : value) :
  responses <> [] ->
  (forall cid v, In (cid, v) responses -> v = verdict) ->
  App.quick_recommendations responses
  = generate_recommendations [("verdict", verdict)].
Proof.
  intros N H. unfold App.quick_recommendations.
  rewrite page_all_recs, all_recs_concat. cbn [app]. unfold dedup.
  set (R := generate_recommendations [("verdict", verdict)]).
  assert (E : forall item, In item responses ->
                (let '(cid, v) := item in
                 generate_recommendations [("clause", VStr cid); ("verdict", v)]) = R).
  { intros [cid v] Hi. rewrite (H cid v Hi).
    apply generate_recommendations_verdict_only. reflexivity. }
  destruct responses as [|[cid v] rest]; [now elim N|].
  cbn [map concat]. rewrite (E (cid, v)) by now left.
  rewrite fold_left_app.
  rewrite (dedup_loop_fresh R []) by apply generate_recommendations_NoDup.
  cbn [app]. apply dedup_loop_absorb.
  intros x Hx. rewrite in_concat in Hx. destruct Hx as [r [Hr Hx]].
  rewrite in_map_iff in Hr. destruct Hr as [a [Er Ha]]. subst r.
  rewrite in_map_iff in Ha. destruct Ha as [[c w] [Ea Hi]]. subst a.
  rewrite (H c w) in Hx by now right.
  rewrite (generate_recommendations_verdict_only _ [("verdict", verdict)]) in Hx;
    [exact Hx | reflexivity].
Qed.

Lemma same_verdict_is_recommended_once_witness :
  App.quick_recommendations
    [("4.1", VStr "Minor NC"); ("4.2", VStr "Minor NC"); ("4.3", VStr "Minor NC")]
  = generate_recommendations [("verdict", VStr "Minor NC")].
Proof.
  apply (same_verdict_is_recommended_once
           [("4.1", VStr "Minor NC"); ("4.2", VStr "Minor NC");
            ("4.3", VStr "Minor NC")]
           (VStr "Minor NC")).
  - discriminate.
  - intros cid v H. simpl in H.
    destruct H as [E|[E|[E|[]]]]; injection E as _ <-; reflexivity.
Defined.

(** X8.  [generate_recommendations] returns the two Major NC lines
    exactly when the verdict is none of the texts Complied, Minor NC and
    Opportunity for Improvement; an analysis without a verdict is such a
    case.  It returns one or two lines, never none. *)
Theorem generate_recommendations_major_by_default (analysis : dict value) :
  (generate_recommendations analysis = [rec_major_1; rec_major_2]
   <-> get analysis "verdict" <> VStr "Complied"
       /\ get analysis "verdict" <> VStr "Minor NC"
       /\ get analysis "verdict" <> VStr "Opportunity for Improvement")
  /\ (dict_get analysis "verdict" = None ->
      generate_recommendations analysis = [rec_major_1; rec_major_2])
  /\ 1 <= List.length (generate_recommendations analysis) <= 2.
Proof.
  split; [|split].
  - split.
    + unfold generate_recommendations. intro H.
      destruct (value_eqb (get analysis "verdict") (VStr "Complied")) eqn:E1;
        [discriminate H|].
      destruct (value_eqb (get analysis "verdict") (VStr "Minor NC")) eqn:E2;
        [discriminate H|].
      destruct (value_eqb (get analysis "verdict")
                  (VStr "Opportunity for Improvement")) eqn:E3;
        [discriminate H|].
      now rewrite <- !value_eqb_neq.
    + intros [H1 [H2 H3]]. now apply generate_recommendations_else.
  - intro H. apply generate_recommendations_else; unfold get; rewrite H;
      discriminate.
  - unfold generate_recommendations.
    destruct (value_eqb (get analysis "verdict") (VStr "Complied"));
      [|destruct (value_eqb (get analysis "verdict") (VStr "Minor NC"));
        [|destruct (value_eqb (get analysis "verdict")
                      (VStr "Opportunity for Improvement"))]];
      cbn; lia.
Qed.

(** A line of the checklist is never the message for a clean result. *)
Lemma checklist_line_is_not_the_message (clause verdict : value) :
  checklist_line clause verdict <> all_complied_message.
Proof. unfold checklist_line, all_complied_message. cbn. discriminate. Qed.

(** X9.  The checklist is never empty: it has as many lines as there are
    analyses whose verdict is not Complied, and one line when there is
    none; the message for a clean result is in it exactly when every
    verdict is Complied. *)
Theorem generate_checklist_never_empty (analysis_list : list (dict value)) :
  List.length (generate_checklist analysis_list)
    = Nat.max 1 (List.length (filter outstanding analysis_list))
  /\ (In all_complied_message (generate_checklist analysis_list)
      <-> Forall (fun a => get a "verdict" = VStr "Complied") analysis_list).
Proof.
  unfold generate_checklist. rewrite checklist_loop. cbn [app].
  rewrite <- filter_outstanding_nil.
  destruct (filter outstanding analysis_list) as [|a l] eqn:E.
  - cbn. split; [reflexivity|]. split; [reflexivity | now left].
  - split.
    + cbn [map List.length]. rewrite length_map. lia.
    + split; [|discriminate].
      intro H. apply in_map_iff in H. destruct H as [b [Hb _]].
      unfold line_of in Hb. now apply checklist_line_is_not_the_message in Hb.
Qed.

End Report.

(** ** The counters of the summary *)

Section Counters.

Import App.
Local Open Scope Z_scope.

(** One turn of the counting loop on a verdict that is not an empty list
    leaves four counters under the same names. *)
Lemma count_step_keeps_names (cid : string) (verdict : value) (a b c d : Z) :
  verdict <> VList [] ->
  exists a' b' c' d' : Z,
    count_step
      [("Complied"%string, a); ("Minor NC"%string, b);
       ("Opportunity for Improvement"%string, c); ("Major NC"%string, d)]
      (cid, verdict)
    = inr [("Complied"%string, a'); ("Minor NC"%string, b');
           ("Opportunity for Improvement"%string, c'); ("Major NC"%string, d')].
Proof.
  intro N.
  assert (F : Forall (fun item : string * value => snd item <> VList [])
                     [(cid, verdict)]) by (repeat constructor; exact N).
  pose proof (counting_loop_by_name [(cid, verdict)] F a b c d) as L.
  cbn [for_each] in L.
  destruct (count_step _ (cid, verdict)) as [e|counts]; [discriminate L|].
  rewrite L. eauto.
Qed.

Lemma counting_loop_raises (responses : dict value) :
  Exists (fun item => snd item = VList []) responses ->
  forall a b c d : Z,
    for_each count_step responses
      [("Complied"%string, a); ("Minor NC"%string, b);
       ("Opportunity for Improvement"%string, c); ("Major NC"%string, d)]
    = inl IndexError.
Proof.
  induction responses as [|[cid verdict] rest IH]; intros X a b c d.
  - inversion X.
  - cbn [for_each].
    destruct (value_eqb verdict (VList [])) eqn:V.
    + apply value_eqb_eq in V. subst verdict. reflexivity.
    + apply value_eqb_neq in V.
      destruct (count_step_keeps_names cid verdict a b c d V)
        as [a' [b' [c' [d' E]]]].
      rewrite E. apply IH.
      inversion X as [? ? H|? ? H]; subst; [cbn in H; contradiction|exact H].
Qed.

Lemma empty_list_or_none (responses : dict value) :
  Exists (fun item => snd item = VList []) responses
  \/ Forall (fun item => snd item <> VList []) responses.
Proof.
  induction responses as [|[cid verdict] rest IH].
  - right. constructor.
  - destruct (value_eqb verdict (VList [])) eqn:V.
    + apply value_eqb_eq in V. left. now constructor.
    + apply value_eqb_neq in V. destruct IH as [X|F].
      * left. now apply Exists_cons_tl.
      * right. now constructor.
Qed.


(** What one recorded verdict adds to the four counters together. *)
Lemma occurrences_of_one (cid : string) (verdict : value) :
  verdict <> VList [] ->
  occurrences "Complied" [(cid, verdict)]
  + occurrences "Minor NC" [(cid, verdict)]
  + occurrences "Opportunity for Improvement" [(cid, verdict)]
  + occurrences "Major NC" [(cid, verdict)]
  = if Scale.spelled_as_counter verdict then 1 else 0.
Proof.
  intro N. unfold occurrences, Scale.spelled_as_counter. cbn [filter].
  destruct verdict as [|k|[|k rest]]; [reflexivity| |contradiction|];
    cbn [primary]; unfold dict_contains, verdict_counts_init; cbn [dict_get];
    (destruct (String.eqb k "Complied") eqn:E1;
       [apply String.eqb_eq in E1; subst; reflexivity|]);
    (destruct (String.eqb k "Minor NC") eqn:E2;
       [apply String.eqb_eq in E2; subst; reflexivity|]);
    (destruct (String.eqb k "Opportunity for Improvement") eqn:E3;
       [apply String.eqb_eq in E3; subst; reflexivity|]);
    (destruct (String.eqb k "Major NC") eqn:E4;
       [apply String.eqb_eq in E4; subst; reflexivity|]);
    reflexivity.
Qed.

Lemma occurrences_split (name cid : string) (verdict : value) (rest : dict value) :
  occurrences name ((cid, verdict) :: rest)
  = occurrences name [(cid, verdict)] + occurrences name rest.
Proof.
  rewrite (occurrences_cons name cid verdict rest),
          (occurrences_cons name cid verdict []).
  change (occurrences name []) with 0. lia.
Qed.

Lemma occurrences_total (responses : dict value) :
  Forall (fun item => snd item <> VList []) responses ->
  occurrences "Complied" responses + occurrences "Minor NC" responses
  + occurrences "Opportunity for Improvement" responses
  + occurrences "Major NC" responses
  = Z.of_nat
      (List.length
         (filter (fun item => Scale.spelled_as_counter (snd item)) responses)).
Proof.
  induction 1 as [|[cid verdict] rest N _ IH]; [reflexivity|].
  cbn [snd] in N.
  rewrite (occurrences_split "Complied"), (occurrences_split "Minor NC"),
          (occurrences_split "Opportunity for Improvement"),
          (occurrences_split "Major NC").
  pose proof (occurrences_of_one cid verdict N) as O.
  cbn [filter snd]. destruct (Scale.spelled_as_counter verdict);
    cbn [List.length]; lia.
Qed.

Lemma occurrences_nonneg (name : string) (responses : dict value) :
  0 <= occurrences name responses.
Proof. unfold occurrences. lia. Qed.

(** X11.  When the summary is returned, its four counters add up to the
    number of recorded verdicts whose primary is spelled as a counter
    name, which is at most the number of recorded verdicts; no counter is
    negative. *)
Theorem verdict_counts_total (responses : dict value) (counts : dict Z) :
  verdict_counts responses = inr counts ->
  Scale.total counts
  = Z.of_nat
      (List.length
         (filter (fun item => Scale.spelled_as_counter (snd item)) responses))
  /\ Scale.total counts <= Z.of_nat (List.length responses)
  /\ Forall (fun entry => 0 <= snd entry) counts.
Proof.
  intro E.
  destruct (empty_list_or_none responses) as [X|F].
  - rewrite (counting_loop_raises responses X 0 0 0 0 : verdict_counts responses = _) in E.
    discriminate E.
  - rewrite (verdict_counts_by_name responses F) in E. injection E as <-.
    unfold Scale.total, dict_values. cbn [map snd fold_right].
    pose proof (occurrences_total responses F) as T.
    pose proof (filter_length_le
                  (fun item => Scale.spelled_as_counter (snd item)) responses) as L.
    split; [lia|]. split; [lia|].
    repeat constructor; cbn [snd]; apply occurrences_nonneg.
Qed.

Lemma verdict_counts_total_witness :
  Scale.total
    [("Complied"%string, 1); ("Minor NC"%string, 0);
     ("Opportunity for Improvement"%string, 0); ("Major NC"%string, 0)]
  = Z.of_nat
      (List.length
         (filter (fun item => Scale.spelled_as_counter (snd item))
            [("4.1"%string, VList ["OFI"; "Minor NC"]%string);
             ("4.2"%string, VStr "Complied")]))
  /\ Scale.total
       [("Complied"%string, 1); ("Minor NC"%string, 0);
        ("Opportunity for Improvement"%string, 0); ("Major NC"%string, 0)]
     <= Z.of_nat
          (List.length
             [("4.1"%string, VList ["OFI"; "Minor NC"]%string);
              ("4.2"%string, VStr "Complied")])
  /\ Forall (fun entry : string * Z => 0 <= snd entry)
       [("Complied"%string, 1); ("Minor NC"%string, 0);
        ("Opportunity for Improvement"%string, 0); ("Major NC"%string, 0)].
Proof.
  apply (verdict_counts_total
           [("4.1"%string, VList ["OFI"; "Minor NC"]%string);
            ("4.2"%string, VStr "Complied")]).
  reflexivity.
Defined.

End Counters.

(** ** Text *)

Section Text.















End Text.

(** ** Replies of the remote model *)

Section Replies.

Import LlmAssessment.

Variable client_create : list event -> request -> exn + option string.
Variable json_loads : string -> option json.



(** Without a line break after the mark, [lstrip("json")] also takes
    the letters j, s, o and n the body begins with. *)
Example fence_without_line_break :
  safe_load_json json_loads "```jsonnull```" "context"
  = match json_loads "ull" with
    | Some j => inr j
    | None => inl ValueError
    end.
Proof. reflexivity. Qed.




(** X15.  A verdict stated in the reply, whatever non-empty value it is,
    is returned as it stands: the scores are not consulted, need not be
    numbers and are passed on as they came. *)
Theorem stated_verdict_is_returned (d : list (string * json)) (stated : json) :
  dict_get d "verdict" = Some stated ->
  truthy stated = true ->
  read_reply (JDict d)
  = inr (stated,
         match dict_get d "scores" with Some s => s | None => JDict [] end,
         match dict_get d "feedback" with Some f => f | None => JStr EmptyString end).
Proof.
  intros V T. unfold read_reply, get_or, then_. rewrite V, T.
  destruct (dict_get d "scores"), (dict_get d "feedback"); reflexivity.
Qed.

(** X16.  A reply with no verdict, or with one that is empty, and with
    two float scores gets the verdict [score_to_verdict] gives the
    scores. *)
Theorem missing_verdict_is_scored
    (d sc : list (string * json)) (relevance completeness : float) :
  match dict_get d "verdict" with
  | Some stated => truthy stated = false
  | None => True
  end ->
  dict_get d "scores" = Some (JDict sc) ->
  dict_get sc "relevance" = Some (JFloat relevance) ->
  dict_get sc "completeness" = Some (JFloat completeness) ->
  read_reply (JDict d)
  = inr (JStr (Utils.score_to_verdict relevance completeness),
         JDict sc,
         match dict_get d "feedback" with Some f => f | None => JStr EmptyString end).
Proof.
  intros V S R C. unfold read_reply, get_or, then_. rewrite S, R, C.
  rewrite score_to_verdict_dyn_floats.
  destruct (dict_get d "verdict") as [stated|]; [rewrite V|];
    destruct (dict_get d "feedback"); reflexivity.
Qed.

End Replies.



Lemma stated_verdict_is_returned_witness :
  LlmAssessment.read_reply
    (LlmAssessment.JDict
       [("scores", LlmAssessment.JStr "n/a");
        ("verdict", LlmAssessment.JStr "Partially Complied")])
  = inr (LlmAssessment.JStr "Partially Complied", LlmAssessment.JStr "n/a",
         LlmAssessment.JStr EmptyString).
Proof.
  apply (stated_verdict_is_returned
           [("scores", LlmAssessment.JStr "n/a");
            ("verdict", LlmAssessment.JStr "Partially Complied")]
           (LlmAssessment.JStr "Partially Complied")); reflexivity.
Defined.

Lemma missing_verdict_is_scored_witness :
  LlmAssessment.read_reply
    (LlmAssessment.JDict
       [("scores",
         LlmAssessment.JDict
           [("relevance", LlmAssessment.JFloat 0.75%float);
            ("completeness", LlmAssessment.JFloat 0.9%float)]);
        ("verdict", LlmAssessment.JStr EmptyString)])
  = inr (LlmAssessment.JStr (Utils.score_to_verdict 0.75 0.9),
         LlmAssessment.JDict
           [("relevance", LlmAssessment.JFloat 0.75%float);
            ("completeness", LlmAssessment.JFloat 0.9%float)],
         LlmAssessment.JStr EmptyString).
Proof.
  apply (missing_verdict_is_scored
           [("scores",
             LlmAssessment.JDict
               [("relevance", LlmAssessment.JFloat 0.75%float);
                ("completeness", LlmAssessment.JFloat 0.9%float)]);
            ("verdict", LlmAssessment.JStr EmptyString)]
           [("relevance", LlmAssessment.JFloat 0.75%float);
            ("completeness", LlmAssessment.JFloat 0.9%float)]
           0.75%float 0.9%float); reflexivity.
Defined.

(** ** The pages of a structured assessment *)

Section Pages.

Import DecisionTree.



(** A new key goes last. *)
Lemma dict_set_new_key {V : Type} (d : dict V) (k : string) (v : V) :
  ~ In k (dict_keys d) -> dict_keys (dict_set d k v) = dict_keys d ++ [k].
Proof.
  induction d as [|[k' v'] d IH]; simpl; intro N; [reflexivity|].
  destruct (String.eqb k k') eqn:E.
  - apply String.eqb_eq in E. elim N. now left.
  - simpl. rewrite IH; [reflexivity|]. intro H. apply N. now right.
Qed.

Lemma firstn_next {A : Type} (l : list A) (n : nat) (x : A) :
  nth_error l n = Some x -> firstn (S n) l = firstn n l ++ [x].
Proof.
  revert n. induction l as [|y l IH]; intros [|n] H; try discriminate.
  - injection H as ->. reflexivity.
  - simpl in H. rewrite (firstn_cons (S n)), (firstn_cons n), (IH n H).
    reflexivity.
Qed.

Lemma not_among_the_earlier {A : Type} (l : list A) (n : nat) (x : A) :
  NoDup l -> nth_error l n = Some x -> ~ In x (firstn n l).
Proof.
  intro N. revert n. induction N as [|y l Hy N IH]; intros [|n] H; try discriminate.
  - intros [].
  - simpl in H. rewrite firstn_cons. intros [E|I].
    + subst y. apply Hy. now apply nth_error_In in H.
    + now apply (IH n H).
Qed.

Lemma clause_ids_NoDup : NoDup App.clause_ids.
Proof.
  unfold App.clause_ids. cbn. repeat constructor; cbn; intuition discriminate.
Qed.

(** Every clause of the graph starts at a step from which five answers
    reach a verdict. *)
Lemma every_clause_starts_well (cid : string) :
  In cid App.clause_ids -> terminates_within cid "1" 5.
Proof.
  intro H. apply check_terminates_sound.
  unfold App.clause_ids in H. cbn in H.
  destruct H as [<-|[<-|[<-|[<-|[]]]]]; vm_compute; reflexivity.
Qed.

Lemma is_terminal_step_known (g : store) (cid step : string)
    (tree : clause) (s : DecisionTree.step) :
  dict_get g cid = Some tree ->
  dict_get (steps tree) step = Some s ->
  exists flag, App.is_terminal_step cid step g = (inr flag, g).
Proof.
  intros T S. eexists.
  unfold App.is_terminal_step, bind, lift, read_global, subscript, ret.
  rewrite T, S. reflexivity.
Qed.

(** Drawing the form of a step from which a verdict is reached raises
    nothing, and a submitted choice is either refused with [ValueError],
    or ends the clause with a verdict of the graph, or leads to a step
    from which a verdict is reached. *)
Lemma submit_choice_outcome (cid choice : string) (p : Flow.page) (n : nat) :
  terminates_within cid (Flow.step p) n ->
  Flow.last_verdict p = false ->
  Flow.submit_choice cid choice p = inl ValueError
  \/ exists p',
       Flow.submit_choice cid choice p = inr p'
       /\ Flow.clause_idx p' = Flow.clause_idx p
       /\ ((Flow.last_verdict p' = true
            /\ exists v, Flow.responses p' = dict_set (Flow.responses p) cid v)
           \/ (Flow.last_verdict p' = false
               /\ Flow.responses p' = Flow.responses p
               /\ exists m, terminates_within cid (Flow.step p') m)).
Proof.
  intros T L. destruct n as [|n]; [contradiction|].
  destruct T as [opts [O [_ A]]].
  unfold Flow.submit_choice.
  destruct (get_options_inr decision_trees cid (Flow.step p) opts O)
    as [tree [s [Ht [Hs ->]]]].
  unfold run. rewrite (get_question_known _ _ _ tree s Ht Hs).
  destruct (known_step decision_trees cid (Flow.step p) choice tree s Ht Hs)
    as [Ho _].
  rewrite Ho.
  destruct (is_terminal_step_known decision_trees cid (Flow.step p) tree s Ht Hs)
    as [flag Hf].
  rewrite Hf. cbn [fst].
  unfold App.submit. cbn [App.last_verdict App.step App.responses]. rewrite L.
  destruct (in_dec string_dec choice (dict_keys (options s))) as [I|I].
  - destruct (A choice I) as [[v E]|[nxt [E T']]]; rewrite E.
    + right. eexists. split; [reflexivity|]. cbn. split; [reflexivity|].
      left. split; [reflexivity|]. now exists v.
    + right. eexists. split; [reflexivity|]. cbn. split; [reflexivity|].
      right. split; [reflexivity|]. split; [reflexivity|]. now exists n.
  - left. now rewrite (not_an_option cid (Flow.step p) choice _ O I).
Qed.

(** One click keeps a page on track, or a choice that is not offered
    raises [ValueError]. *)
Lemma handle_keeps_on_track (p : Flow.page) (c : Flow.click) :
  Flow.on_track p ->
  match Flow.handle p c with
  | inr p' => Flow.on_track p'
  | inl e => e = ValueError
  end.
Proof.
  intro T. pose proof T as [K [B S]].
  assert (Start : forall idx cid,
             nth_error App.clause_ids idx = Some cid ->
             exists n, terminates_within cid "1" n).
  { intros idx cid H. exists 5. apply every_clause_starts_well.
    now apply nth_error_In in H. }
  destruct c as [| | | |choice|]; cbn [Flow.handle].
  - unfold Flow.on_track, Flow.finished. cbn.
    split; [reflexivity|]. split; [lia|]. intros cid H _. now apply (Start 0).
  - exact T.
  - destruct (Flow.clause_idx p <? Flow.total_clauses)%nat; exact T.
  - destruct (Flow.clause_idx p <? Flow.total_clauses)%nat; exact T.
  - clear S.
    destruct (nth_error App.clause_ids (Flow.clause_idx p)) as [cid|] eqn:N;
      [|exact T].
    destruct (String.eqb (Flow.assessment_mode p) "structured"
              && negb (Flow.last_verdict p)) eqn:G; [|exact T].
    apply andb_prop in G. destruct G as [_ L]. apply negb_true_iff in L.
    destruct T as [_ [_ S]].
    destruct (S cid N L) as [n T].
    destruct (submit_choice_outcome cid choice p n T L)
      as [E|[p' [E [I [[L' [v R]]|[L' [R [m T']]]]]]]]; rewrite E;
      [reflexivity| |].
    + unfold Flow.on_track, Flow.finished in *. rewrite I, L', R. rewrite L in *.
      rewrite Nat.add_0_r in K, B.
      assert (Lt : Flow.clause_idx p < Flow.total_clauses).
      { apply nth_error_Some. congruence. }
      split; [|split; [lia|]].
      * rewrite dict_set_new_key.
        -- rewrite K, Nat.add_1_r. symmetry. now apply firstn_next.
        -- rewrite K. apply not_among_the_earlier; [apply clause_ids_NoDup | exact N].
      * intros cid' _ H. discriminate H.
    + unfold Flow.on_track, Flow.finished in *. rewrite I, L', R. rewrite L in *.
      split; [exact K|]. split; [exact B|].
      intros cid' H _. rewrite N in H. injection H as <-. now exists m.
  - destruct ((Flow.clause_idx p <? Flow.total_clauses)%nat && Flow.last_verdict p)
      eqn:G; [|exact T].
    apply andb_prop in G. destruct G as [_ L].
    unfold Flow.on_track, Flow.finished in *. cbn. rewrite L in *.
    rewrite Nat.add_0_r. split; [exact K|]. split; [exact B|].
    intros cid H _. now apply (Start (Flow.clause_idx p + 1)).
Qed.

Lemma browse_keeps_on_track (clicks : list Flow.click) :
  forall p,
    Flow.on_track p ->
    match Flow.browse clicks p with
    | inr p' => Flow.on_track p'
    | inl e => e = ValueError
    end.
Proof.
  induction clicks as [|c clicks IH]; intros p T; [exact T|].
  unfold Flow.browse in *. cbn [for_each].
  pose proof (handle_keeps_on_track p c T) as H.
  destruct (Flow.handle p c) as [e|p']; [exact H | now apply IH].
Qed.

(** X17.  Whatever a user clicks from a fresh session, in structured
    mode the page stays on track: no click raises anything but the
    [ValueError] of a choice that is not offered; the recorded verdicts
    are those of the first clauses, in the order of the clauses, one for
    each clause left behind and one for the current clause once its
    verdict is in; and the results page, shown when the clause index has
    reached the number of clauses, has a verdict for each of the four
    clauses. *)
Theorem structured_assessment_stays_on_track (clicks : list Flow.click) :
  match Flow.browse clicks Flow.init_session_state with
  | inr p =>
      dict_keys (Flow.responses p) = firstn (Flow.finished p) App.clause_ids
      /\ Flow.finished p <= Flow.total_clauses
      /\ (Flow.total_clauses <= Flow.clause_idx p ->
          dict_keys (Flow.responses p) = App.clause_ids)
  | inl e => e = ValueError
  end.
Proof.
  assert (I : Flow.on_track Flow.init_session_state).
  { unfold Flow.on_track, Flow.finished. cbn.
    split; [reflexivity|]. split; [lia|]. intros cid H _.
    exists 5. apply every_clause_starts_well. injection H as <-. now left. }
  pose proof (browse_keeps_on_track clicks _ I) as H.
  destruct (Flow.browse clicks Flow.init_session_state) as [e|p]; [exact H|].
  destruct H as [K [B _]]. split; [exact K|]. split; [exact B|].
  intro G. rewrite K. unfold Flow.finished, Flow.total_clauses in *.
  apply firstn_all2. lia.
Qed.

(** A whole assessment, answered with the first option each time. *)
Example a_whole_assessment :
  let yes := [Flow.SubmitChoice "No"; Flow.ClickNext] in
  match Flow.browse (yes ++ yes ++ yes ++ yes) Flow.init_session_state with
  | inr p =>
      Flow.clause_idx p = 4
      /\ Flow.responses p
         = [("4.1", VStr "Major NC"); ("4.2", VStr "Major NC");
            ("4.3", VStr "Major NC"); ("4.4", VStr "Major NC")]
  | inl _ => False
  end.
Proof. vm_compute. split; reflexivity. Qed.

(** Restarting keeps the mode and the assistant panel as they are. *)
Example restart_keeps_the_mode :
  Flow.browse [Flow.ClickOpenEnded; Flow.ClickAssistant; Flow.ClickRestart]
    Flow.init_session_state
  = inr {| Flow.clause_idx := 0; Flow.step := "1"; Flow.responses := [];
           Flow.last_verdict := false; Flow.open_ended_responses := [];
           Flow.evidence_analysis := []; Flow.previous_answers := [];
           Flow.form_submitted := false; Flow.show_ai_assistant := true;
           Flow.assessment_mode := "open_ended" |}.
Proof. reflexivity. Qed.




End Pages.
